(** * A ledger bot: the command interpreter and the weekly accrual of
    [budget_bot.py], embedded in Rocq.

    The bot keeps one JSON document (balance, weekly amount, date of the last
    accrual, the ten most recent transactions), changes it on chat commands
    ([BudgetBot.handle_command]) and once a week adds the allowance
    ([weekly_task]); the commands come from the messages a poll loop
    receives ([poll_signal_messages]), which sends the replies back
    ([send_signal_message]).

    Conventions of the embedding.
    - A Python [float] is an IEEE-754 binary64 number: [spec_float] of the
      Standard Library at precision 53 and maximal exponent 1024, with the
      library's round-to-nearest-even operations.  [spec_float] has a single
      NaN, as Python programs can observe.
    - A Python [str] is the [string] of its UTF-8 encoding.  The characters
      of the ASCII range are read the way Python reads them, and so are the
      blanks outside ASCII ([str.isspace]), by the bytes of their encoding.
      What else Python knows of the characters outside ASCII (their lower
      case, which of them are decimal digits or printable) is not modelled:
      [lower], [float_of_str] and [repr] say where that matters.
    - [self.state] is a record, the file [budget_state.json] is a part of the
      bot's world, and an exception is a value: a computation returns the new
      world together with either a result or the exception raised. *)

From Stdlib Require Import ZArith List String Ascii Bool Lia QArith Qabs Qpower DecimalString.
From Stdlib Require Import Floats.SpecFloat.
Import ListNotations.

Local Open Scope string_scope.
Local Open Scope Z_scope.

(** ** Characters and strings as Python's [str] methods see them *)

Definition code (c : ascii) : Z := Z.of_N (N_of_ascii c).

Definition char_of_code (n : Z) : ascii := ascii_of_N (Z.to_N n).

(** [str.isspace] on the ASCII range: TAB, LF, VT, FF, CR, the four
    separators FS, GS, RS, US and the space. *)
Definition is_space (c : ascii) : bool :=
  let n := code c in
  ((9 <=? n) && (n <=? 13)) || ((28 <=? n) && (n <=? 32)).

Definition is_digit (c : ascii) : bool :=
  let n := code c in (48 <=? n) && (n <=? 57).

Definition digit_value (c : ascii) : Z := code c - 48.

Definition lower_char (c : ascii) : ascii :=
  let n := code c in
  if (65 <=? n) && (n <=? 90) then char_of_code (n + 32) else c.

(** [str.lower] on the ASCII letters; the other bytes are left as they are.
    Python also changes letters outside ASCII, but into characters outside
    ASCII, the Kelvin sign U+212A apart, which becomes [k].  The program
    only compares the lowered word with its keywords, which are ASCII and
    hold no [k], so every comparison comes out as in Python. *)
Fixpoint lower (s : string) : string :=
  match s with
  | EmptyString => EmptyString
  | String c s' => String (lower_char c) (lower s')
  end.

(** The blanks outside ASCII ([str.isspace]), by the bytes of their UTF-8
    encoding: U+0085 and U+00A0 in two bytes; U+1680, U+2000 to U+200A,
    U+2028, U+2029, U+202F, U+205F and U+3000 in three. *)
Definition blank2 (c1 c2 : ascii) : bool :=
  (code c1 =? 194) && ((code c2 =? 133) || (code c2 =? 160)).

Definition blank3 (c1 c2 c3 : ascii) : bool :=
  let a := code c1 in
  let b := code c2 in
  let c := code c3 in
  ((a =? 225) && (b =? 154) && (c =? 128))
  || ((a =? 226) && (b =? 128)
      && (((128 <=? c) && (c <=? 138)) || (c =? 168) || (c =? 169) || (c =? 175)))
  || ((a =? 226) && (b =? 129) && (c =? 159))
  || ((a =? 227) && (b =? 128) && (c =? 128)).

(** The string with a space in the place of every blank outside ASCII. *)
Fixpoint spaces (s : string) : string :=
  match s with
  | EmptyString => EmptyString
  | String c1 r1 =>
      if code c1 <? 128 then String c1 (spaces r1)
      else
        match r1 with
        | String c2 r2 =>
            if blank2 c1 c2 then String " " (spaces r2)
            else
              match r2 with
              | String c3 r3 =>
                  if blank3 c1 c2 c3 then String " " (spaces r3)
                  else String c1 (spaces r1)
              | EmptyString => String c1 (spaces r1)
              end
        | EmptyString => String c1 (spaces r1)
        end
  end.

(** [str.split()] without argument: the maximal runs of non-blank
    characters, in order.  [split_from] cuts at the ASCII blanks, [word]
    being the run read so far; [split] gives it the text with its other
    blanks turned into spaces. *)
Fixpoint split_from (word : string) (s : string) : list string :=
  match s with
  | EmptyString =>
      match word with EmptyString => [] | _ => [word] end
  | String c s' =>
      if is_space c then
        match word with
        | EmptyString => split_from EmptyString s'
        | _ => word :: split_from EmptyString s'
        end
      else split_from (word ++ String c EmptyString) s'
  end.

Definition split (s : string) : list string := split_from EmptyString (spaces s).

(** [sep.join(l)]. *)
Fixpoint join (sep : string) (l : list string) : string :=
  match l with
  | [] => EmptyString
  | [x] => x
  | x :: l' => x ++ sep ++ join sep l'
  end.

(** [l[n:]] and [l[-n:]] for a non-negative [n]. *)
Definition slice_from {A : Type} (n : nat) (l : list A) : list A := skipn n l.

Definition last_n {A : Type} (n : nat) (l : list A) : list A :=
  skipn (List.length l - n)%nat l.

Fixpoint contains_char (c : ascii) (s : string) : bool :=
  match s with
  | EmptyString => false
  | String d s' => Ascii.eqb c d || contains_char c s'
  end.

Definition str_of_nat_digits (n : Z) : string :=
  NilZero.string_of_uint (N.to_uint (Z.to_N n)).

(** [str(n)] for an integer. *)
Definition str_of_int (n : Z) : string :=
  if n <? 0 then "-" ++ str_of_nat_digits (- n) else str_of_nat_digits n.

Fixpoint zeros (n : nat) : string :=
  match n with
  | O => EmptyString
  | S k => String "0" (zeros k)
  end.

(** A number text in at least [width] characters, padded with zeros on the
    left, as the two- and four-digit fields of [strftime] are. *)
Definition zero_pad (width : nat) (s : string) : string :=
  zeros (width - String.length s) ++ s.

Definition hex_digit (n : Z) : ascii :=
  if n <? 10 then char_of_code (48 + n) else char_of_code (87 + n).

Definition double_quote : ascii := char_of_code 34.
Definition single_quote : ascii := char_of_code 39.
Definition backslash : ascii := char_of_code 92.

Definition repr_char (quote : ascii) (c : ascii) : string :=
  let n := code c in
  if Ascii.eqb c backslash then String backslash (String backslash EmptyString)
  else if Ascii.eqb c quote then String backslash (String c EmptyString)
  else if n =? 9 then String backslash "t"
  else if n =? 10 then String backslash "n"
  else if n =? 13 then String backslash "r"
  else if (n <? 32) || (n =? 127) then
    String backslash
      (String "x" (String (hex_digit (n / 16)) (String (hex_digit (n mod 16)) EmptyString)))
  else String c EmptyString.

Fixpoint repr_body (quote : ascii) (s : string) : string :=
  match s with
  | EmptyString => EmptyString
  | String c s' => repr_char quote c ++ repr_body quote s'
  end.

(** [repr(s)] of a string: single quotes, unless the string holds a single
    quote and no double quote.  The characters of the ASCII range are
    written as Python writes them.  A character outside ASCII is written as
    it is, which is what Python does when the character is printable; one
    that is not (a blank such as U+00A0, a format character such as U+200B)
    Python writes as an escape, and that is not modelled: what is stated of
    [repr] holds for the strings of [is_ascii]. *)
Definition repr (s : string) : string :=
  let quote :=
    if contains_char single_quote s && negb (contains_char double_quote s)
    then double_quote else single_quote in
  String quote (repr_body quote s ++ String quote EmptyString).

Fixpoint lstrip (s : string) : string :=
  match s with
  | EmptyString => EmptyString
  | String c1 r1 =>
      if is_space c1 then lstrip r1
      else
        match r1 with
        | String c2 r2 =>
            if blank2 c1 c2 then lstrip r2
            else
              match r2 with
              | String c3 r3 => if blank3 c1 c2 c3 then lstrip r3 else s
              | EmptyString => s
              end
        | EmptyString => s
        end
  end.

(** Nothing but blanks is left from here on: the end is cut. *)
Fixpoint rstrip (s : string) : string :=
  match s with
  | EmptyString => EmptyString
  | String c s' =>
      match lstrip s with
      | EmptyString => EmptyString
      | _ => String c (rstrip s')
      end
  end.

(** [str.strip()]. *)
Definition strip (s : string) : string := lstrip (rstrip s).

(** What [float] strips at both ends of its argument: the blanks of C's
    [isspace] (TAB to CR and the space, not the separators FS to US), a
    blank outside ASCII counting as a space. *)
Definition is_c_space (c : ascii) : bool :=
  let n := code c in ((9 <=? n) && (n <=? 13)) || (n =? 32).

Fixpoint c_lstrip (s : string) : string :=
  match s with
  | String c s' => if is_c_space c then c_lstrip s' else s
  | EmptyString => EmptyString
  end.

Fixpoint c_rstrip (s : string) : string :=
  match s with
  | EmptyString => EmptyString
  | String c s' =>
      match c_rstrip s' with
      | EmptyString => if is_c_space c then EmptyString else String c EmptyString
      | r => String c r
      end
  end.

Definition float_strip (s : string) : string := c_lstrip (c_rstrip (spaces s)).

(** ** Exceptions

    [OSError] and [ValueError] are the classes the program names in an
    [except] clause; [OverflowError] is what date arithmetic raises past the
    last day of the calendar and [RecursionError] what [json.load] raises on
    a text nested too deep.  Each carries the text [str(e)] gives, and
    [except Exception] catches all of them. *)

Inductive exn : Type :=
| OSError (msg : string)
| ValueError (msg : string)
| OverflowError (msg : string)
| RecursionError (msg : string).

Definition str_of_exn (e : exn) : string :=
  match e with
  | OSError msg => msg
  | ValueError msg => msg
  | OverflowError msg => msg
  | RecursionError msg => msg
  end.

Inductive outcome (A : Type) : Type :=
| Return (a : A)
| Raise (e : exn).

Arguments Return {A} a.
Arguments Raise {A} e.

(** ** Python floats *)

Definition prec : Z := 53.
Definition emax : Z := 1024.

Definition float : Type := spec_float.

Definition float_add : float -> float -> float := SFadd prec emax.
Definition float_mul : float -> float -> float := SFmul prec emax.
Definition float_neg : float -> float := SFopp.
Definition float_abs : float -> float := SFabs.

Definition zero : float := S754_zero false.
(* 1.0 is 2^52 * 2^-52 *)
Definition one : float := S754_finite false 4503599627370496 (-52).

Definition is_finite (x : float) : bool :=
  match x with
  | S754_zero _ | S754_finite _ _ _ => true
  | S754_infinity _ | S754_nan => false
  end.

(** The conversion of an [int] operand that [int * float] makes first:
    the nearest float, ties to even. *)
Definition float_of_int (n : Z) : float := binary_normalize prec emax n 0 false.

(** The float nearest to [m * 10 ^ e], ties to even, with the sign [neg]:
    a product when [e] is not negative, and else the quotient of [m] by
    [10 ^ (- e)], rounded once from the quotient and the place of the
    remainder. *)
Definition float_of_decimal (neg : bool) (m : Z) (e : Z) : float :=
  match m with
  | Zpos p =>
      if 0 <=? e then binary_normalize prec emax (cond_Zopp neg (Zpos p * 10 ^ e)) 0 neg
      else
        let '(q, e', l) := SFdiv_core_binary prec emax (Zpos p) 0 (10 ^ (- e)) 0 in
        binary_round_aux prec emax neg q e' l
  | _ => S754_zero neg
  end.

(** The exact value of a finite float, as a rational in lowest terms. *)
Definition float_value (x : float) : option Q :=
  match x with
  | S754_zero _ => Some 0%Q
  | S754_finite s m e => Some (Qred (inject_Z (cond_Zopp s (Zpos m)) * Qpower 2 e))
  | S754_infinity _ | S754_nan => None
  end.

(** *** [float(s)] for a string

    The grammar of the language reference:
    [[sign] (floatnumber | "inf" | "infinity" | "nan")], letters in any
    case, where [floatnumber] is [number [exponent]], [number] is
    [[digitpart] "." digitpart | digitpart ["."]], [exponent] is
    [("e" | "E") [sign] digitpart] and [digitpart] is digits with single
    underscores allowed between two digits.  The blanks at both ends are
    dropped first ([float_strip]).

    The digits read are those of ASCII.  Python also reads the decimal
    digits of the other scripts (the Arabic-Indic five, U+0665, is a 5):
    for a word that holds such a digit [float_of_str] raises where Python
    may return a float.  A result [Return x] is the float Python returns;
    a result [Raise _] is what Python does for the strings of
    [is_ascii]. *)

(** What follows the first digit of a [digitpart]. *)
Fixpoint digits_tail (s : string) : list Z * string :=
  match s with
  | String c s' =>
      if is_digit c then
        let (ds, r) := digits_tail s' in (digit_value c :: ds, r)
      else if Ascii.eqb c "_" then
        match s' with
        | String d s'' =>
            if is_digit d then
              let (ds, r) := digits_tail s'' in (digit_value d :: ds, r)
            else ([], s)
        | EmptyString => ([], s)
        end
      else ([], s)
  | EmptyString => ([], s)
  end.

Definition digitpart (s : string) : option (list Z * string) :=
  match s with
  | String c s' =>
      if is_digit c then
        let (ds, r) := digits_tail s' in Some (digit_value c :: ds, r)
      else None
  | EmptyString => None
  end.

(** The digits before the point, the digits after it, and the rest. *)
Definition number (s : string) : option (list Z * list Z * string) :=
  match digitpart s with
  | Some (ip, r) =>
      match r with
      | String "." r' =>
          match digitpart r' with
          | Some (fp, r'') => Some (ip, fp, r'')
          | None => Some (ip, [], r')
          end
      | _ => Some (ip, [], r)
      end
  | None =>
      match s with
      | String "." r' =>
          match digitpart r' with
          | Some (fp, r'') => Some ([], fp, r'')
          | None => None
          end
      | _ => None
      end
  end.

Definition int_of_digits (ds : list Z) : Z :=
  fold_left (fun acc d => 10 * acc + d) ds 0.

(** The exponent that ends a [floatnumber]; nothing may follow it. *)
Definition exponent (s : string) : option Z :=
  match s with
  | EmptyString => Some 0
  | String c s' =>
      if Ascii.eqb (lower_char c) "e" then
        let '(neg, body) :=
          match s' with
          | String "+" r => (false, r)
          | String "-" r => (true, r)
          | _ => (false, s')
          end in
        match digitpart body with
        | Some (ds, EmptyString) => Some (cond_Zopp neg (int_of_digits ds))
        | _ => None
        end
      else None
  end.

Definition float_of_str (s : string) : outcome float :=
  let t := float_strip s in
  let '(neg, body) :=
    match t with
    | String "+" r => (false, r)
    | String "-" r => (true, r)
    | _ => (false, t)
    end in
  let low := lower body in
  if (low =? "inf")%string || (low =? "infinity")%string then
    Return (S754_infinity neg)
  else if (low =? "nan")%string then Return S754_nan
  else
    match number body with
    | Some (ip, fp, r) =>
        match exponent r with
        | Some e =>
            Return (float_of_decimal neg (int_of_digits (ip ++ fp)%list)
                      (e - Z.of_nat (List.length fp)))
        | None => Raise (ValueError ("could not convert string to float: " ++ repr s))
        end
    | None => Raise (ValueError ("could not convert string to float: " ++ repr s))
    end.

(** *** [format(x, ".2f")]

    The decimal expansion of the exact value, rounded to two places with
    ties to even; the sign is kept on a zero; [inf] and [nan] are written
    as words. *)

(** The integer nearest to [m * 2 ^ e * 100], ties to even. *)
Definition round_hundredths (m : positive) (e : Z) : Z :=
  if 0 <=? e then Zpos m * 2 ^ e * 100
  else
    let d := 2 ^ (- e) in
    let q := (Zpos m * 100) / d in
    let r := (Zpos m * 100) mod d in
    match 2 * r ?= d with
    | Lt => q
    | Gt => q + 1
    | Eq => if Z.even q then q else q + 1
    end.

Definition fixed2 (neg : bool) (n : Z) : string :=
  (if neg then "-" else EmptyString) ++ str_of_int (n / 100) ++ "."
    ++ zero_pad 2 (str_of_int (n mod 100)).

Definition format_2f (x : float) : string :=
  match x with
  | S754_nan => "nan"
  | S754_infinity s => if s then "-inf" else "inf"
  | S754_zero s => fixed2 s 0
  | S754_finite s m e => fixed2 s (round_hundredths m e)
  end.

(** ** Dates: the part of [datetime] the program uses

    The proleptic Gregorian calendar of the [datetime] module, years 1 to
    9999, with the day count of [date.toordinal] (1 is 0001-01-01).  [cdate]
    is the class [date]; the name [date] is kept for the key of a
    transaction. *)

Record cdate : Type := mkdate { year : Z; month : Z; day : Z }.

(** What [datetime.now()] gives, to the minute: neither the subtraction of a
    midnight nor the two [strftime] formats look below the minute. *)
Record datetime : Type := mkdatetime { today : cdate; hour : Z; minute : Z }.

Definition MINYEAR : Z := 1.
Definition MAXYEAR : Z := 9999.
Definition MAXORDINAL : Z := 3652059.

Definition DAYS_IN_MONTH : list Z :=
  [-1; 31; 28; 31; 30; 31; 30; 31; 31; 30; 31; 30; 31].

Definition DAYS_BEFORE_MONTH : list Z :=
  [-1; 0; 31; 59; 90; 120; 151; 181; 212; 243; 273; 304; 334].

Definition DI400Y : Z := 146097.
Definition DI100Y : Z := 36524.
Definition DI4Y : Z := 1461.

Definition is_leap (y : Z) : bool :=
  (y mod 4 =? 0) && (negb (y mod 100 =? 0) || (y mod 400 =? 0)).

Definition days_before_year (y : Z) : Z :=
  let y := y - 1 in y * 365 + y / 4 - y / 100 + y / 400.

Definition days_in_month (y m : Z) : Z :=
  if (m =? 2) && is_leap y then 29 else nth (Z.to_nat m) DAYS_IN_MONTH 0.

Definition days_before_month (y m : Z) : Z :=
  nth (Z.to_nat m) DAYS_BEFORE_MONTH 0 + (if (2 <? m) && is_leap y then 1 else 0).

Definition ymd2ord (y m d : Z) : Z :=
  days_before_year y + days_before_month y m + d.

(** The last lines of [_ord2ymd]: the month and the day of the day number
    [n] (from 0) of a year, leap or not.  The month is estimated as
    [(n + 50) >> 5] and taken back by one when the estimate is too far. *)
Definition month_day (leapyear : bool) (n : Z) : Z * Z :=
  let m := Z.shiftr (n + 50) 5 in
  let preceding :=
    nth (Z.to_nat m) DAYS_BEFORE_MONTH 0 + (if (2 <? m) && leapyear then 1 else 0) in
  if n <? preceding then
    let m' := m - 1 in
    let preceding' :=
      preceding
      - (nth (Z.to_nat m') DAYS_IN_MONTH 0 + (if (m' =? 2) && leapyear then 1 else 0)) in
    (m', n - preceding' + 1)
  else (m, n - preceding + 1).

Definition ord2ymd (n : Z) : cdate :=
  let n := n - 1 in
  let n400 := n / DI400Y in
  let n := n mod DI400Y in
  let n100 := n / DI100Y in
  let n := n mod DI100Y in
  let n4 := n / DI4Y in
  let n := n mod DI4Y in
  let n1 := n / 365 in
  let n := n mod 365 in
  let y := n400 * 400 + 1 + n100 * 100 + n4 * 4 + n1 in
  if (n1 =? 4) || (n100 =? 4) then mkdate (y - 1) 12 31
  else
    let leapyear := (n1 =? 3) && (negb (n4 =? 24) || (n100 =? 3)) in
    let (m, d) := month_day leapyear n in
    mkdate y m d.

Definition valid_date (d : cdate) : bool :=
  (MINYEAR <=? year d) && (year d <=? MAXYEAR)
  && (1 <=? month d) && (month d <=? 12)
  && (1 <=? day d) && (day d <=? days_in_month (year d) (month d)).

(** [date.toordinal] and [date.fromordinal]. *)
Definition toordinal (d : cdate) : Z := ymd2ord (year d) (month d) (day d).

Definition fromordinal (n : Z) : outcome cdate :=
  if (1 <=? n) && (n <=? MAXORDINAL) then Return (ord2ymd n)
  else Raise (OverflowError "date value out of range").

(** [(now - last).days] for a [last] at midnight: the whole days between the
    two dates, whatever the time of day of [now]. *)
Definition days_since (now : datetime) (last : cdate) : Z :=
  toordinal (today now) - toordinal last.

(** [last + timedelta(weeks=w)]. *)
Definition add_weeks (last : cdate) (w : Z) : outcome cdate :=
  fromordinal (toordinal last + 7 * w).

(** [d.strftime("%Y-%m-%d")] and [now.strftime("%Y-%m-%d %H:%M")], the year
    in four digits as the library documents it. *)
Definition strftime_date (d : cdate) : string :=
  zero_pad 4 (str_of_int (year d)) ++ "-" ++ zero_pad 2 (str_of_int (month d))
    ++ "-" ++ zero_pad 2 (str_of_int (day d)).

Definition strftime_minute (t : datetime) : string :=
  strftime_date (today t) ++ " " ++ zero_pad 2 (str_of_int (hour t))
    ++ ":" ++ zero_pad 2 (str_of_int (minute t)).

Definition in_range (lo hi : Z) (c : ascii) : bool :=
  (lo <=? digit_value c) && (digit_value c <=? hi) && is_digit c.

(** The field [%Y]: exactly four digits. *)
Definition parse_year (s : string) : option (Z * string) :=
  match s with
  | String a (String b (String c (String d r))) =>
      if is_digit a && is_digit b && is_digit c && is_digit d then
        Some (1000 * digit_value a + 100 * digit_value b
              + 10 * digit_value c + digit_value d, r)
      else None
  | _ => None
  end.

(** The field [%m]: [1[0-2]], else [0[1-9]], else [[1-9]]. *)
Definition parse_month (s : string) : option (Z * string) :=
  match s with
  | String a r =>
      match r with
      | String b r' =>
          if Ascii.eqb a "1" && in_range 0 2 b then Some (10 + digit_value b, r')
          else if Ascii.eqb a "0" && in_range 1 9 b then Some (digit_value b, r')
          else if in_range 1 9 a then Some (digit_value a, r)
          else None
      | EmptyString => if in_range 1 9 a then Some (digit_value a, r) else None
      end
  | EmptyString => None
  end.

(** The field [%d]: [3[0-1]], else [[1-2]\d], else [0[1-9]], else [[1-9]],
    else a space and [[1-9]]. *)
Definition parse_day (s : string) : option (Z * string) :=
  match s with
  | String a r =>
      match r with
      | String b r' =>
          if Ascii.eqb a "3" && in_range 0 1 b then Some (30 + digit_value b, r')
          else if in_range 1 2 a && is_digit b then
            Some (10 * digit_value a + digit_value b, r')
          else if Ascii.eqb a "0" && in_range 1 9 b then Some (digit_value b, r')
          else if in_range 1 9 a then Some (digit_value a, r)
          else if Ascii.eqb a " " && in_range 1 9 b then Some (digit_value b, r')
          else None
      | EmptyString => if in_range 1 9 a then Some (digit_value a, r) else None
      end
  | EmptyString => None
  end.

Definition expect_dash (s : string) : option string :=
  match s with
  | String "-" r => Some r
  | _ => None
  end.

(** The three fields of ["%Y-%m-%d"] and what is left of the text. *)
Definition match_ymd (s : string) : option (cdate * string) :=
  match parse_year s with
  | Some (y, r1) =>
      match expect_dash r1 with
      | Some r2 =>
          match parse_month r2 with
          | Some (m, r3) =>
              match expect_dash r3 with
              | Some r4 =>
                  match parse_day r4 with
                  | Some (d, r5) => Some (mkdate y m d, r5)
                  | None => None
                  end
              | None => None
              end
          | None => None
          end
      | None => None
      end
  | None => None
  end.

(** [datetime.strptime(s, "%Y-%m-%d")], a midnight, as its date. *)
Definition strptime_date (s : string) : outcome cdate :=
  match match_ymd s with
  | None =>
      Raise (ValueError ("time data " ++ repr s ++ " does not match format '%Y-%m-%d'"))
  | Some (d, String c r) =>
      Raise (ValueError ("unconverted data remains: " ++ String c r))
  | Some (d, EmptyString) =>
      if (year d <? MINYEAR) then
        Raise (ValueError ("year " ++ str_of_int (year d) ++ " is out of range"))
      else if valid_date d then Return d
      else Raise (ValueError "day is out of range for month")
  end.

(** ** JSON values

    A value [json.load] and [json.loads] build.  A dict is the list of its
    items, each key once. *)
#[warnings="-register-all"]
Inductive json : Type :=
| JNone
| JBool (b : bool)
| JInt (n : Z)
| JFloat (x : float)
| JStr (s : string)
| JList (l : list json)
| JDict (items : list (string * json)).

(** ** The ledger and the world of the bot *)

(** One entry of [state["history"]]. *)
Record transaction : Type := mktransaction {
  date : string;
  amount : float;
  comment : string
}.

(** [self.state]: the document of [budget_state.json].  The numbers are
    floats: the default values are floats, every amount comes from
    [float(...)] or from a product with a float, and a float written by
    [json.dump] is read back as a float by [json.load]. *)
Record ledger : Type := mkledger {
  balance : float;
  weekly_amount : float;
  last_weekly_update : string;
  history : list transaction
}.

Definition set_balance (x : float) (s : ledger) : ledger :=
  mkledger x (weekly_amount s) (last_weekly_update s) (history s).

Definition set_weekly_amount (x : float) (s : ledger) : ledger :=
  mkledger (balance s) x (last_weekly_update s) (history s).

Definition set_last_weekly_update (d : string) (s : ledger) : ledger :=
  mkledger (balance s) (weekly_amount s) d (history s).

Definition set_history (h : list transaction) (s : ledger) : ledger :=
  mkledger (balance s) (weekly_amount s) (last_weekly_update s) h.

(** What [STATE_FILE] is on the disk when the program opens it for
    reading. *)
Inductive storage : Type :=
| Missing
    (* no such file: [open] raises FileNotFoundError, an OSError *)
| Unreadable (msg : string)
    (* [open] or [read] raises another OSError *)
| Malformed (msg : string)
    (* the bytes are not UTF-8 text or the text is not JSON:
       [json.load] raises UnicodeDecodeError or JSONDecodeError,
       both ValueError *)
| TooDeep (msg : string)
    (* the text opens more brackets, one in the other, than the recursion
       limit of the interpreter allows: [json.load] raises RecursionError,
       which is neither an OSError nor a ValueError *)
| Foreign (v : json)
    (* a JSON text that is not the text of a ledger, as [{}], [[]] or [0]:
       [json.load] returns its value *)
| Document (s : ledger).
    (* the JSON text of a ledger *)

(** What [json.load] returns: a ledger, or another value. *)
Inductive contents : Type :=
| Ledger (s : ledger)
| Other (v : json).

(** How a save fails, when one of the saves of an operation does: which save
    it is (0 the first save of the operation, 1 the second; only a turn of
    [weekly_task] that accrues saves twice), where it fails, and the message
    of the [OSError]. *)
Inductive failure : Type :=
| OpenFails (save : nat) (msg : string)
    (* [open(STATE_FILE, "w")] raises: the file is as it was *)
| WriteFails (save : nat) (msg : string) (decode_msg : string).
    (* the file was opened, which empties it, and [json.dump] or the closing
       of the file raises: the text is cut short and is no JSON text;
       [decode_msg] is what [json.load] will say of it *)

Definition failing_save (f : failure) : nat :=
  match f with OpenFails k _ | WriteFails k _ _ => k end.

Definition failure_message (f : failure) : string :=
  match f with OpenFails _ msg | WriteFails _ msg _ => msg end.

(** The file a failed save leaves, from the file it found. *)
Definition cut_short (f : failure) (old : storage) : storage :=
  match f with
  | OpenFails _ _ => old
  | WriteFails _ _ decode_msg => Malformed decode_msg
  end.

(** What an operation reads from outside the program: the clock, and
    whether a save fails, and how; with [None] every save succeeds. *)
Record env : Type := mkenv {
  now : datetime;
  write_error : option failure
}.

(** The failure of the save number [k] of the operation, if it fails. *)
Definition failure_at (k : nat) (e : env) : option failure :=
  match write_error e with
  | Some f => if (failing_save f =? k)%nat then Some f else None
  | None => None
  end.

Record bot : Type := mkbot {
  state : ledger;
  file : storage
}.

(** ** Computations: the world is threaded, an exception ends the sequence *)

Definition M (A : Type) : Type := env -> bot -> bot * outcome A.

Definition ret {A : Type} (a : A) : M A := fun _ b => (b, Return a).

Definition bind {A B : Type} (m : M A) (k : A -> M B) : M B :=
  fun e b =>
    match m e b with
    | (b', Return a) => k a e b'
    | (b', Raise x) => (b', Raise x)
    end.

Notation "x <- m ;; k" := (bind m (fun x => k))
  (at level 61, m at next level, right associativity).
Notation "m ;; k" := (bind m (fun _ => k))
  (at level 61, right associativity).

(** The result of a pure library call, raised if it is an exception. *)
Definition lift {A : Type} (o : outcome A) : M A := fun _ b => (b, o).

(** [try: m  except <classes>: h]. *)
Definition try_except {A : Type} (m : M A) (caught : exn -> bool) (h : exn -> M A) : M A :=
  fun e b =>
    match m e b with
    | (b', Return a) => (b', Return a)
    | (b', Raise x) => if caught x then h x e b' else (b', Raise x)
    end.

Definition is_ValueError (x : exn) : bool :=
  match x with ValueError _ => true | _ => false end.

Definition is_OSError_or_ValueError (x : exn) : bool :=
  match x with OSError _ | ValueError _ => true | _ => false end.

Definition is_Exception (x : exn) : bool := true.

Definition get_state : M ledger := fun _ b => (b, Return (state b)).

(** An assignment to a key of [self.state]. *)
Definition modify (f : ledger -> ledger) : M unit :=
  fun _ b => (mkbot (f (state b)) (file b), Return tt).

Definition datetime_now : M datetime := fun e b => (b, Return (now e)).

(** ** The program *)

(** [save_state], as the save number [k] of the operation: the whole state
    replaces the file, unless the save fails; then the file is as it was or
    cut short, and the [OSError] is raised. *)
Definition save_nth (k : nat) : M unit :=
  fun e b =>
    match failure_at k e with
    | Some f => (mkbot (state b) (cut_short f (file b)), Raise (OSError (failure_message f)))
    | None => (mkbot (state b) (Document (state b)), Return tt)
    end.

(** [save_state], where it is the first save of an operation. *)
Definition save_state : M unit := save_nth 0.

Definition default_state (t : datetime) : ledger :=
  mkledger zero one (strftime_date (today t)) [].

(** [open(STATE_FILE, "r")] and [json.load]. *)
Definition read_document (f : storage) : outcome contents :=
  match f with
  | Missing => Raise (OSError "[Errno 2] No such file or directory: 'budget_state.json'")
  | Unreadable msg => Raise (OSError msg)
  | Malformed msg => Raise (ValueError msg)
  | TooDeep msg => Raise (RecursionError msg)
  | Foreign v => Return (Other v)
  | Document s => Return (Ledger s)
  end.

(** [load_state], called by [__init__] before there is a state. *)
Definition load_state (e : env) (f : storage) : outcome contents :=
  match read_document f with
  | Return v => Return v
  | Raise x =>
      if is_OSError_or_ValueError x then Return (Ledger (default_state (now e)))
      else Raise x
  end.

(** What [BudgetBot()] constructs: a bot whose state is a ledger, which the
    rest of the model follows, or an object whose [state] is another value,
    which it does not follow. *)
Inductive started : Type :=
| Runs (b : bot)
| Holds (v : json).

(** [BudgetBot()]. *)
Definition BudgetBot (e : env) (f : storage) : outcome started :=
  match load_state e f with
  | Return (Ledger s) => Return (Runs (mkbot s f))
  | Return (Other v) => Return (Holds v)
  | Raise x => Raise x
  end.

Definition add_transaction (amount : float) (comment : string) : M float :=
  modify (fun s => set_balance (float_add (balance s) amount) s) ;;
  t <- datetime_now ;;
  modify (fun s =>
    set_history
      (history s ++
         [mktransaction (strftime_minute t) amount
            (match comment with EmptyString => "Manual Entry" | _ => comment end)])%list
      s) ;;
  modify (fun s => set_history (last_n 10 (history s)) s) ;;
  save_state ;;
  s <- get_state ;;
  ret (balance s).

Definition nl : string := String (char_of_code 10) EmptyString.

Definition usage_text : string :=
  "📖 *Budget Bot Usage*" ++ nl ++
  "• /balance - Show current balance" ++ nl ++
  "• /add [amount] [reason] - Add funds (e.g., `/add 10.50 birthday`)" ++ nl ++
  "• /sub [amount] [reason] - Withdraw (e.g., `/sub 5 coffee`)" ++ nl ++
  "• /history - Show last 10 transactions" ++ nl ++
  "• /set [amount] - Change weekly allowance" ++ nl ++
  "• /usage - Show this menu".

Definition invalid_amount_reply : string :=
  "⚠️ Invalid amount. Use: /add 5.00 chocolate".

Definition history_line (h : transaction) : string :=
  "• " ++ date h ++ ": £" ++ format_2f (amount h) ++ " (" ++ comment h ++ ")".

(** [x in l] for strings. *)
Definition str_in (x : string) (l : list string) : bool :=
  existsb (String.eqb x) l.

(** [handle_command]: the reply, or [None].  The chain of [elif] is a
    chain of [if]; a command that matches no branch leaves the [try] and
    reaches the final [return None]. *)
Definition handle_command (text : string) : M (option string) :=
  let parts := split text in
  match parts with
  | [] => ret None
  | p0 :: _ =>
      let cmd := lower p0 in
      try_except
        (if str_in cmd ["/usage"; "/help"] then ret (Some usage_text)
         else if (cmd =? "/balance")%string then
           s <- get_state ;;
           ret (Some ("💰 Balance: £" ++ format_2f (balance s)))
         else if (cmd =? "/history")%string then
           s <- get_state ;;
           match history s with
           | [] => ret (Some "📜 No transactions yet.")
           | _ =>
               let h_lines := map history_line (history s) in
               ret (Some ("📜 Recent History:" ++ nl ++ join nl h_lines))
           end
         else if str_in cmd ["/add"; "/sub"; "/withdraw"] && (1 <? Z.of_nat (List.length parts)) then
           try_except
             (amt <- lift (float_of_str (nth 1 parts EmptyString)) ;;
              let comment :=
                if 2 <? Z.of_nat (List.length parts) then join " " (slice_from 2 parts)
                else EmptyString in
              let '(amt, action) :=
                if str_in cmd ["/sub"; "/withdraw"] then (float_neg amt, "Subtracted")
                else (amt, "Added") in
              add_transaction amt comment ;;
              s <- get_state ;;
              ret (Some ("✅ " ++ action ++ " £" ++ format_2f (float_abs amt)
                         ++ ". New Balance: £" ++ format_2f (balance s))))
             is_ValueError
             (fun _ => ret (Some invalid_amount_reply))
         else if (cmd =? "/set")%string && (1 <? Z.of_nat (List.length parts)) then
           w <- lift (float_of_str (nth 1 parts EmptyString)) ;;
           modify (set_weekly_amount w) ;;
           save_state ;;
           s <- get_state ;;
           ret (Some ("⚙️ Weekly amount set to £" ++ format_2f (weekly_amount s)))
         else ret None)
        is_Exception
        (fun x => ret (Some ("⚠️ Error: " ++ str_of_exn x)))
  end.

(** One turn of the loop of [weekly_task], from the reading of the clock to
    the sleep.  It holds no [await], so nothing of the poll loop runs inside
    it; an exception it raises ends the task. *)
Definition weekly_task (_ : unit) : M unit :=
  t <- datetime_now ;;
  s <- get_state ;;
  last_date <- lift (strptime_date (last_weekly_update s)) ;;
  if 7 <=? days_since t last_date then
    let weeks := days_since t last_date / 7 in
    s <- get_state ;;
    let total := float_mul (float_of_int weeks) (weekly_amount s) in
    add_transaction total ("Auto-allowance (" ++ str_of_int weeks ++ " wks)") ;;
    d <- lift (add_weeks last_date weeks) ;;
    modify (set_last_weekly_update (strftime_date d)) ;;
    save_nth 1
  else ret tt.

(** ** The poll loop *)

(** The result of a step of the poll loop: a value, or the text [str(e)] of
    the exception it raised.  The loop catches [Exception] and uses only
    that text. *)
Inductive attempt (A : Type) : Type :=
| Ok (a : A)
| Err (msg : string).
Arguments Ok {A} a.
Arguments Err {A} msg.

(** [type(v).__name__] *)
Definition type_name (v : json) : string :=
  match v with
  | JNone => "NoneType"
  | JBool _ => "bool"
  | JInt _ => "int"
  | JFloat _ => "float"
  | JStr _ => "str"
  | JList _ => "list"
  | JDict _ => "dict"
  end.

(** [bool(v)] *)
Definition truthy (v : json) : bool :=
  match v with
  | JNone => false
  | JBool b => b
  | JInt n => negb (n =? 0)
  | JFloat x => match x with S754_zero _ => false | _ => true end
  | JStr s => match s with EmptyString => false | _ => true end
  | JList l => match l with [] => false | _ => true end
  | JDict items => match items with [] => false | _ => true end
  end.

Fixpoint lookup (key : string) (items : list (string * json)) : option json :=
  match items with
  | [] => None
  | (k, v) :: items' => if (k =? key)%string then Some v else lookup key items'
  end.

(** [v.get(key, default)]; only a dict has the method. *)
Definition get (v : json) (key : string) (default : json) : attempt json :=
  match v with
  | JDict items =>
      Ok (match lookup key items with Some x => x | None => default end)
  | _ => Err ("'" ++ type_name v ++ "' object has no attribute 'get'")
  end.

(** [s.startswith(p)] *)
Definition startswith (p s : string) : bool := String.prefix p s.

(** The text of a received message: that of the data message, and when
    there is none, that of the sent message of the sync message. *)
Definition incoming_text (msg : json) : attempt json :=
  match get msg "envelope" (JDict []) with
  | Err m => Err m
  | Ok envelope =>
      match get envelope "dataMessage" (JDict []) with
      | Err m => Err m
      | Ok data_msg =>
          match get data_msg "message" JNone with
          | Err m => Err m
          | Ok text =>
              if truthy text then Ok text
              else
                match get envelope "syncMessage" (JDict []) with
                | Err m => Err m
                | Ok sync_msg =>
                    match get sync_msg "sentMessage" (JDict []) with
                    | Err m => Err m
                    | Ok sent_msg => get sent_msg "message" JNone
                    end
                end
          end
      end
  end.

(** The command a received message holds, if
    [incoming_text and incoming_text.startswith("/")]. *)
Definition command_of (msg : json) : attempt (option string) :=
  match incoming_text msg with
  | Err m => Err m
  | Ok text =>
      if truthy text then
        match text with
        | JStr s => Ok (if startswith "/" s then Some s else None)
        | _ => Err ("'" ++ type_name text ++ "' object has no attribute 'startswith'")
        end
      else Ok None
  end.

(** The values [for msg in messages] goes through. *)
Definition iterate (messages : json) : attempt (list json) :=
  match messages with
  | JList l => Ok l
  | JDict items => Ok (map (fun kv => JStr (fst kv)) items)
  | JStr s => Ok (map (fun c => JStr (String c EmptyString)) (list_ascii_of_string s))
  | _ => Err ("'" ++ type_name messages ++ "' object is not iterable")
  end.

(** [REGISTERED_NUMBER] and [GROUP_ID], as [os.getenv] gave them. *)
Record config : Type := mkconfig {
  REGISTERED_NUMBER : option string;
  GROUP_ID : option string
}.

Record payload : Type := mkpayload {
  payload_message : string;
  payload_number : option string;
  payload_recipients : list (option string)
}.

(** The answer to a request: a status and a body, or an exception. *)
Inductive response : Type :=
| Responds (status : Z) (body : string)
| Fails (msg : string).

(** What the loop sends out: the payloads it posts and the lines it logs as
    errors, both in order. *)
Record trace : Type := mktrace {
  posted : list payload;
  logged : list string
}.

Definition silent : trace := mktrace [] [].

Definition trace_app (t u : trace) : trace :=
  mktrace (posted t ++ posted u)%list (logged t ++ logged u)%list.

(** [send_signal_message], given the answer to its POST. *)
Definition send_signal_message (cfg : config) (answer : response) (text : string) : trace :=
  let payload := mkpayload text (REGISTERED_NUMBER cfg) [GROUP_ID cfg] in
  match answer with
  | Responds status body =>
      if (status =? 200) || (status =? 201) then mktrace [payload] []
      else mktrace [payload] ["Failed to send: " ++ body]
  | Fails msg => mktrace [payload] ["Send error: " ++ msg]
  end.

Definition SIGNAL_API_BASE : string := "http://localhost:8080".

(** [f"{SIGNAL_API_BASE}/v1/receive/{REGISTERED_NUMBER}"]: a number that is
    not set is written [None]. *)
Definition receive_url (cfg : config) : string :=
  SIGNAL_API_BASE ++ "/v1/receive/"
  ++ match REGISTERED_NUMBER cfg with Some number => number | None => "None" end.

(** What one turn of the poll loop meets outside the bot: the answer the
    service gives to a GET of each address, what [json.loads] makes of the
    body, and for the message at each place of the batch the clock and the
    disk when it is handled and the answer to the POST of its reply. *)
Record surroundings : Type := mksurroundings {
  received : string -> response;
  loaded : attempt json;
  handled_at : nat -> env;
  send_answer : nat -> response
}.

(** The body of [for msg in messages], from the message at place [i] on.
    An exception leaves the loop; what was done before it stays.
    [handle_command] holds no [await] and runs in one piece; the loop gives
    way at the [await] of each POST, and the batch modelled here is one in
    which [weekly_task], asleep for an hour at a time, does not wake
    meanwhile. *)
Fixpoint for_msg_in (cfg : config) (w : surroundings) (i : nat) (messages : list json)
    (b : bot) : bot * trace * attempt unit :=
  match messages with
  | [] => (b, silent, Ok tt)
  | msg :: rest =>
      match command_of msg with
      | Err m => (b, silent, Err m)
      | Ok None => for_msg_in cfg w (S i) rest b
      | Ok (Some text) =>
          match handle_command text (handled_at w i) b with
          | (b', Raise x) => (b', silent, Err (str_of_exn x))
          | (b', Return None) => for_msg_in cfg w (S i) rest b'
          | (b', Return (Some EmptyString)) => for_msg_in cfg w (S i) rest b'
          | (b', Return (Some response_text)) =>
              let sent := send_signal_message cfg (send_answer w i) response_text in
              let '(b'', t, r) := for_msg_in cfg w (S i) rest b' in
              (b'', trace_app sent t, r)
          end
      end
  end.

(** [raw_text and raw_text.strip() != "null"] *)
Definition has_messages (raw_text : string) : bool :=
  match raw_text with EmptyString => false | _ => true end
  && negb (strip raw_text =? "null")%string.

(** One turn of the loop of [poll_signal_messages], from the GET to the
    sleep. *)
Definition poll_turn (cfg : config) (w : surroundings) (b : bot) : bot * trace :=
  match received w (receive_url cfg) with
  | Fails m => (b, mktrace [] ["Polling error: " ++ m])
  | Responds status raw_text =>
      if status =? 200 then
        if has_messages raw_text then
          match loaded w with
          | Err m => (b, mktrace [] ["Polling error: " ++ m])
          | Ok messages =>
              match iterate messages with
              | Err m => (b, mktrace [] ["Polling error: " ++ m])
              | Ok msgs =>
                  let '(b', t, r) := for_msg_in cfg w 0 msgs b in
                  match r with
                  | Ok _ => (b', t)
                  | Err m => (b', trace_app t (mktrace [] ["Polling error: " ++ m]))
                  end
              end
          end
        else (b, silent)
      else (b, silent)
  end.

(** ** Runs of the program *)

(** [k] turns of the loop of [weekly_task]; an exception ends the task. *)
Fixpoint weekly_loop (k : nat) : M unit :=
  match k with
  | O => ret tt
  | S k' => weekly_task tt ;; weekly_loop k'
  end.

(** The turns of [weekly_task] at the successive readings of the clock and
    of the disk; an exception ends the task. *)
Fixpoint weekly_turns (envs : list env) (b : bot) : bot * outcome unit :=
  match envs with
  | [] => (b, Return tt)
  | e :: rest =>
      match weekly_task tt e b with
      | (b', Return _) => weekly_turns rest b'
      | (b', Raise x) => (b', Raise x)
      end
  end.

(** One call of [add_transaction]: what it reads from outside, the amount
    and the comment. *)
Record call : Type := mkcall {
  call_env : env;
  call_amount : float;
  call_comment : string
}.

(** The world after a sequence of calls of [add_transaction]; the changes a
    call made before it raised stay, as they do in [self.state]. *)
Definition apply_all (calls : list call) (b : bot) : bot :=
  fold_left
    (fun b c => fst (add_transaction (call_amount c) (call_comment c) (call_env c) b))
    calls b.

(** The worlds the two loops of [main] can reach from [b0]: each step is one
    command of the poll loop or one turn of [weekly_task]. *)
Inductive reachable (b0 : bot) : bot -> Prop :=
| reach_start : reachable b0 b0
| reach_command (text : string) (e : env) (b : bot) :
    reachable b0 b -> reachable b0 (fst (handle_command text e b))
| reach_weekly (e : env) (b : bot) :
    reachable b0 b -> reachable b0 (fst (weekly_task tt e b)).

(** ** Notions the properties are stated with *)

(** The exact sum of finite floats, as a rational in lowest terms. *)
Fixpoint sum_values (l : list float) : option Q :=
  match l with
  | [] => Some 0%Q
  | x :: l' =>
      match float_value x, sum_values l' with
      | Some v, Some w => Some (Qred (v + w))
      | _, _ => None
      end
  end.

(** "The final balance is the initial balance plus the exact sum of the
    amounts", decided for a run whose numbers are all finite. *)
Definition exact_sum_holds (b : bot) (calls : list call) : bool :=
  match float_value (balance (state b)),
        sum_values (map call_amount calls),
        float_value (balance (state (apply_all calls b))) with
  | Some v0, Some total, Some v => Qeq_bool v (v0 + total)
  | _, _, _ => false
  end.

(** Every character is of the ASCII range. *)
Fixpoint is_ascii (s : string) : bool :=
  match s with
  | EmptyString => true
  | String c s' => (code c <? 128) && is_ascii s'
  end.

Fixpoint all_digits (s : string) : bool :=
  match s with
  | EmptyString => true
  | String c s' => is_digit c && all_digits s'
  end.

(** Digits, then a point and two digits to the end. *)
Fixpoint fraction_follows (s : string) : bool :=
  match s with
  | EmptyString => false
  | String c s' =>
      if (c =? ".")%char then
        match s' with
        | String a (String b EmptyString) => is_digit a && is_digit b
        | _ => false
        end
      else is_digit c && fraction_follows s'
  end.

Definition unsigned_two_decimals (s : string) : bool :=
  match s with
  | EmptyString => false
  | String c s' => is_digit c && fraction_follows s'
  end.

(** A number written with exactly two decimal places: an optional minus
    sign, at least one digit, a point, two digits. *)
Definition has_two_decimals (s : string) : bool :=
  match s with
  | EmptyString => false
  | String c s' =>
      if (c =? "-")%char then unsigned_two_decimals s' else unsigned_two_decimals s
  end.

(** The sign bit of a float, that of a zero included; the one NaN has
    none. *)
Definition is_negative (x : float) : bool :=
  match x with
  | S754_zero s | S754_infinity s | S754_finite s _ _ => s
  | S754_nan => false
  end.

Definition is_nan (x : float) : bool :=
  match x with S754_nan => true | _ => false end.

(** The commands that take an amount. *)
Definition transaction_commands : list string := ["/add"; "/sub"; "/withdraw"].
Definition amount_commands : list string := ["/add"; "/sub"; "/withdraw"; "/set"].

(** Every keyword [handle_command] compares the first token with. *)
Definition known_commands : list string :=
  ["/usage"; "/help"; "/balance"; "/history"; "/add"; "/sub"; "/withdraw"; "/set"].

(** The entry [add_transaction] appends. *)
Definition new_entry (e : env) (amount : float) (comment : string) : transaction :=
  mktransaction (strftime_minute (now e)) amount
    (match comment with EmptyString => "Manual Entry" | _ => comment end).

(** The state [add_transaction] leaves. *)
Definition after_transaction (e : env) (a : float) (c : string) (s : ledger) : ledger :=
  mkledger (float_add (balance s) a) (weekly_amount s) (last_weekly_update s)
    (last_n 10 (history s ++ [new_entry e a c])%list).

(** The amount and the word of the confirmation, from the keyword. *)
Definition signed_amount (cmd : string) (x : float) : float :=
  if str_in cmd ["/sub"; "/withdraw"] then float_neg x else x.

Definition action_word (cmd : string) : string :=
  if str_in cmd ["/sub"; "/withdraw"] then "Subtracted" else "Added".

(** The state any command leaves. *)
Definition state_after_command (text : string) (e : env) (s : ledger) : ledger :=
  match split text with
  | p0 :: tok :: rest =>
      if str_in (lower p0) transaction_commands then
        match float_of_str tok with
        | Return x => after_transaction e (signed_amount (lower p0) x) (join " " rest) s
        | Raise _ => s
        end
      else if (lower p0 =? "/set")%string then
        match float_of_str tok with
        | Return w => set_weekly_amount w s
        | Raise _ => s
        end
      else s
  | _ => s
  end.

(** What a turn of [weekly_task] that accrues computes from the date [last]
    it read. *)
Definition accrual_weeks (e : env) (last : cdate) : Z := days_since (now e) last / 7.

Definition accrual_total (e : env) (last : cdate) (s : ledger) : float :=
  float_mul (float_of_int (accrual_weeks e last)) (weekly_amount s).

Definition accrual_comment (e : env) (last : cdate) : string :=
  "Auto-allowance (" ++ str_of_int (accrual_weeks e last) ++ " wks)".

(** ** Notions of the further properties *)

(** The file holds the state in memory. *)
Definition in_sync (b : bot) : Prop := file b = Document (state b).

(** The day number of the clock. *)
Definition clock_day (e : env) : Z := toordinal (today (now e)).

(** From the day [n0] on the clock never runs backwards and shows a date of
    the calendar, and the disk takes every write. *)
Fixpoint steady_from (n0 : Z) (envs : list env) : Prop :=
  match envs with
  | [] => True
  | e :: rest =>
      valid_date (today (now e)) = true /\ write_error e = None
      /\ n0 <= clock_day e /\ steady_from (clock_day e) rest
  end.

(** The day of the last reading of the clock, [n0] when there is none. *)
Definition last_day (n0 : Z) (envs : list env) : Z :=
  fold_left (fun _ e => clock_day e) envs n0.

(** The entries a sequence of calls of [add_transaction] appends. *)
Definition entries_of (calls : list call) : list transaction :=
  map (fun c => new_entry (call_env c) (call_amount c) (call_comment c)) calls.

(** The same surroundings with another batch. *)
Definition with_loaded (w : surroundings) (v : attempt json) : surroundings :=
  mksurroundings (received w) v (handled_at w) (send_answer w).

(** The commands of a batch run one after the other, the one at place [i]
    at the clock and the disk of that place; [None] is a message that holds
    no command. *)
Fixpoint run_commands (w : surroundings) (i : nat) (cmds : list (option string))
    (b : bot) : bot :=
  match cmds with
  | [] => b
  | None :: rest => run_commands w (S i) rest b
  | Some text :: rest =>
      run_commands w (S i) rest (fst (handle_command text (handled_at w i) b))
  end.

(** Their replies, those that are not empty. *)
Fixpoint replies (w : surroundings) (i : nat) (cmds : list (option string))
    (b : bot) : list string :=
  match cmds with
  | [] => []
  | None :: rest => replies w (S i) rest b
  | Some text :: rest =>
      let '(b', r) := handle_command text (handled_at w i) b in
      match r with
      | Return (Some (String c s)) => String c s :: replies w (S i) rest b'
      | _ => replies w (S i) rest b'
      end
  end.

(** A message as the Signal service delivers a text from another member,
    and one it delivers for a text sent from the owner's own device. *)
Definition data_message (s : string) : json :=
  JDict [("envelope", JDict [("dataMessage", JDict [("message", JStr s)])])].

Definition sync_message (s : string) : json :=
  JDict [("envelope",
          JDict [("syncMessage", JDict [("sentMessage", JDict [("message", JStr s)])])])].

(** The reply the loop posts: [if response_text]. *)
Definition to_post (reply : option string) : option string :=
  match reply with
  | Some (String c s) => Some (String c s)
  | _ => None
  end.

(** ** Sample worlds *)

(** 2024-11-21, 12:00; a disk that takes the writes; a bot started with no
    file on that day. *)
Definition noon : datetime := mkdatetime (mkdate 2024 11 21) 12 0.
Definition calm : env := mkenv noon None.
Definition fresh : bot := mkbot (default_state noon) Missing.

(* U+00A0, the no-break space a phone keyboard may put between two words *)
Definition nbsp : string :=
  String (char_of_code 194) (String (char_of_code 160) EmptyString).

(* 5.0, 10.0, -5.0 and 1e16 *)
Definition five : float := S754_finite false 5629499534213120 (-50).
Definition ten : float := S754_finite false 5629499534213120 (-49).
Definition minus_five : float := S754_finite true 5629499534213120 (-50).
Definition ten_quadrillion : float := S754_finite false 5000000000000000 1.

(** A weekly amount of 5 and a last accrual 17 days before [noon]. *)
Definition owed_17_days : bot := mkbot (mkledger zero five "2024-11-04" []) Missing.

Definition entry (n : Z) : transaction :=
  mktransaction "2024-11-20 08:00" (float_of_int n) "Manual Entry".

(** A history of ten entries. *)
Definition full_bot : bot :=
  mkbot (mkledger zero one "2024-11-20" (map entry [1; 2; 3; 4; 5; 6; 7; 8; 9; 10])) Missing.

(** 1e16, then 1 twice. *)
Definition big_then_small : list call :=
  [mkcall calm ten_quadrillion EmptyString; mkcall calm one EmptyString;
   mkcall calm one EmptyString].

(** ** Checks by enumeration *)

(** [p z && p (z + 1) && ...], [n] values. *)
Fixpoint all_from (n : nat) (z : Z) (p : Z -> bool) : bool :=
  match n with
  | O => true
  | S k => p z && all_from k (z + 1) p
  end.

(** For the day number [n] of a year: the month and the day [month_day]
    gives are a month and a day of that month, and the days before them
    count up to [n]. *)
Definition month_day_check (leapyear : bool) (n : Z) : bool :=
  let (m, d) := month_day leapyear n in
  (1 <=? m) && (m <=? 12) && (1 <=? d)
  && (d <=? (if (m =? 2) && leapyear then 29 else nth (Z.to_nat m) DAYS_IN_MONTH 0))
  && (nth (Z.to_nat m) DAYS_BEFORE_MONTH 0 + (if (2 <? m) && leapyear then 1 else 0) + d
      =? n + 1).

Definition digit_char (n : Z) : ascii := char_of_code (48 + n).

Definition four_digits (y : Z) : string :=
  String (digit_char (y / 1000)) (String (digit_char (y / 100 mod 10))
    (String (digit_char (y / 10 mod 10)) (String (digit_char (y mod 10)) EmptyString))).

Definition year_check (y : Z) : bool :=
  (zero_pad 4 (str_of_int y) =? four_digits y)%string.

(** What [match_ymd] does after the year and its dash. *)
Definition match_md (s : string) : option (Z * Z * string) :=
  match parse_month s with
  | Some (m, r3) =>
      match expect_dash r3 with
      | Some r4 =>
          match parse_day r4 with
          | Some (d, r5) => Some (m, d, r5)
          | None => None
          end
      | None => None
      end
  | None => None
  end.

Definition month_day_text_check (md : Z) : bool :=
  let m := md / 32 in
  let d := md mod 32 in
  if (1 <=? m) && (m <=? 12) && (1 <=? d) && (d <=? 31) then
    match match_md (zero_pad 2 (str_of_int m) ++ "-" ++ zero_pad 2 (str_of_int d)) with
    | Some (m', d', EmptyString) => (m' =? m) && (d' =? d)
    | _ => false
    end
  else true.

Definition pad2_check (k : Z) : bool :=
  let p := zero_pad 2 (str_of_int k) in
  (String.length p =? 2)%nat && all_digits p.

(** [n] pence written as pounds with two decimals. *)
Definition pounds_pence (n : Z) : string :=
  str_of_int (n / 100) ++ "." ++ zero_pad 2 (str_of_int (n mod 100)).

(** The amount of [n] pence typed with two decimals is one word, it parses,
    and [.2f] writes the float it parses to with the digits typed. *)
Definition typed_amount_check (n : Z) : bool :=
  match split (pounds_pence n), float_of_str (pounds_pence n) with
  | [tok], Return x =>
      (tok =? pounds_pence n)%string
      && (format_2f x =? pounds_pence n)%string
      && (format_2f (float_abs (float_neg x)) =? pounds_pence n)%string
  | _, _ => false
  end.

(** Closed conditions of an [if] are evaluated. *)
Ltac eval_conds :=
  repeat match goal with
         | |- context [if ?c then _ else _] =>
             let v := eval vm_compute in c in
             match v with
             | true => change c with true
             | false => change c with false
             end; cbv iota
         end.

(** * Properties

    ** The calendar *)

(** A check by enumeration holds at every value of its range. *)
Lemma all_from_spec (p : Z -> bool) (n : nat) :
  forall z, all_from n z p = true ->
  forall i, z <= i < z + Z.of_nat n -> p i = true.
Proof.
  induction n as [|k IH]; intros z H i Hi.
  - simpl in Hi. lia.
  - simpl in H. apply andb_true_iff in H. destruct H as [Hz Hk].
    destruct (Z.eq_dec i z) as [->|Hne]; [exact Hz|].
    apply (IH (z + 1) Hk). lia.
Qed.

Lemma month_day_check_common : all_from (Z.to_nat 365) 0 (month_day_check false) = true.
Proof. vm_compute. reflexivity. Qed.

Lemma month_day_check_leap : all_from (Z.to_nat 365) 0 (month_day_check true) = true.
Proof. vm_compute. reflexivity. Qed.

Lemma month_day_ok (leapyear : bool) (n : Z) :
  0 <= n < 365 -> month_day_check leapyear n = true.
Proof.
  intros Hn. destruct leapyear.
  - apply (all_from_spec _ _ 0 month_day_check_leap). lia.
  - apply (all_from_spec _ _ 0 month_day_check_common). lia.
Qed.

(** The year [400 a + 100 b + 4 c + n1 + 1], the year [n1 + 1] of the
    4-year block [c] of the century [b] of the 400-year cycle [a]: the days
    before it, and whether it is a leap year. *)
Section Blocks.

Variables a b c n1 : Z.
Hypothesis Hb : 0 <= b <= 3.
Hypothesis Hc : 0 <= c <= 24.
Hypothesis Hn1 : 0 <= n1 <= 3.

Lemma days_before_year_blocks :
  days_before_year (400 * a + 100 * b + 4 * c + n1 + 1)
  = DI400Y * a + DI100Y * b + DI4Y * c + 365 * n1.
Proof.
  unfold days_before_year, DI400Y, DI100Y, DI4Y. cbv zeta.
  replace (400 * a + 100 * b + 4 * c + n1 + 1 - 1) with (400 * a + 100 * b + 4 * c + n1) by lia.
  assert (E4 : (400 * a + 100 * b + 4 * c + n1) / 4 = 100 * a + 25 * b + c).
  { symmetry. apply (Z.div_unique _ 4 _ n1); lia. }
  assert (E100 : (400 * a + 100 * b + 4 * c + n1) / 100 = 4 * a + b).
  { symmetry. apply (Z.div_unique _ 100 _ (4 * c + n1)); lia. }
  assert (E400 : (400 * a + 100 * b + 4 * c + n1) / 400 = a).
  { symmetry. apply (Z.div_unique _ 400 _ (100 * b + 4 * c + n1)); lia. }
  rewrite E4, E100, E400. lia.
Qed.

Lemma is_leap_blocks :
  is_leap (400 * a + 100 * b + 4 * c + n1 + 1)
  = (n1 =? 3) && (negb (c =? 24) || (b =? 3)).
Proof.
  unfold is_leap.
  set (y := 400 * a + 100 * b + 4 * c + n1 + 1).
  assert (M4 : y mod 4 = (n1 + 1) mod 4).
  { unfold y. replace (400 * a + 100 * b + 4 * c + n1 + 1)
      with (n1 + 1 + (100 * a + 25 * b + c) * 4) by lia. apply Z.mod_add. lia. }
  assert (M100 : y mod 100 = (4 * c + n1 + 1) mod 100).
  { unfold y. replace (400 * a + 100 * b + 4 * c + n1 + 1)
      with (4 * c + n1 + 1 + (4 * a + b) * 100) by lia. apply Z.mod_add. lia. }
  assert (M400 : y mod 400 = (100 * b + 4 * c + n1 + 1) mod 400).
  { unfold y. replace (400 * a + 100 * b + 4 * c + n1 + 1)
      with (100 * b + 4 * c + n1 + 1 + a * 400) by lia. apply Z.mod_add. lia. }
  rewrite M4, M100, M400. clearbody y.
  pose proof Hb as Hb'. pose proof Hc as Hc'. pose proof Hn1 as Hn1'.
  destruct (Z.eqb_spec n1 3) as [E1|E1];
    destruct (Z.eqb_spec c 24) as [E2|E2];
    destruct (Z.eqb_spec b 3) as [E3|E3]; cbn [negb andb orb];
    repeat match goal with
           | |- context [?x mod ?k =? 0] =>
               let H := fresh "Hm" in
               destruct (Z.eqb_spec (x mod k) 0) as [H|H]
           end; cbn [negb andb orb]; try reflexivity; exfalso;
    Z.to_euclidean_division_equations; lia.
Qed.

End Blocks.

(** [fromordinal] inverts [toordinal]: the date of the day [n] is a date of
    the calendar and counts back to [n]. *)
Lemma ord2ymd_correct (n : Z) :
  1 <= n <= MAXORDINAL ->
  toordinal (ord2ymd n) = n /\ valid_date (ord2ymd n) = true.
Proof.
  intros Hn. unfold ord2ymd.
  set (n0 := n - 1).
  set (a := n0 / DI400Y). set (r := n0 mod DI400Y).
  set (b := r / DI100Y). set (r100 := r mod DI100Y).
  set (c := r100 / DI4Y). set (r4 := r100 mod DI4Y).
  set (n1 := r4 / 365). set (r1 := r4 mod 365).
  cbv zeta.
  assert (Hn0 : n0 = DI400Y * a + r /\ 0 <= r < DI400Y).
  { split; [apply Z.div_mod | apply Z.mod_pos_bound]; unfold DI400Y; lia. }
  assert (Hr : r = DI100Y * b + r100 /\ 0 <= r100 < DI100Y).
  { split; [apply Z.div_mod | apply Z.mod_pos_bound]; unfold DI100Y; lia. }
  assert (Hr100 : r100 = DI4Y * c + r4 /\ 0 <= r4 < DI4Y).
  { split; [apply Z.div_mod | apply Z.mod_pos_bound]; unfold DI4Y; lia. }
  assert (Hr4 : r4 = 365 * n1 + r1 /\ 0 <= r1 < 365).
  { split; [apply Z.div_mod | apply Z.mod_pos_bound]; lia. }
  assert (Ha : 0 <= a).
  { apply Z.div_pos; unfold n0, DI400Y; lia. }
  assert (Hb : 0 <= b <= 4).
  { unfold b, DI100Y, DI400Y in *. split; [apply Z.div_pos; lia|].
    assert (r / 36524 < 5) by (apply Z.div_lt_upper_bound; lia). lia. }
  assert (Hc : 0 <= c <= 24).
  { unfold c, DI4Y, DI100Y in *. split; [apply Z.div_pos; lia|].
    assert (r100 / 1461 < 25) by (apply Z.div_lt_upper_bound; lia). lia. }
  assert (Hn1 : 0 <= n1 <= 4).
  { unfold n1, DI4Y in *. split; [apply Z.div_pos; lia|].
    assert (r4 / 365 < 5) by (apply Z.div_lt_upper_bound; lia). lia. }
  clearbody a r b r100 c r4 n1 r1.
  unfold DI400Y, DI100Y, DI4Y, MAXORDINAL in *.
  destruct (Z.eqb_spec b 4) as [Eb|Eb].
  - (* the last day of a 400-year cycle *)
    rewrite orb_true_r.
    assert (c = 0 /\ n1 = 0 /\ r1 = 0) as (-> & -> & ->) by lia. subst b.
    replace (a * 400 + 1 + 4 * 100 + 0 * 4 + 0 - 1)
      with (400 * a + 100 * 3 + 4 * 24 + 3 + 1) by lia.
    unfold toordinal, valid_date, ymd2ord, days_before_month, days_in_month.
    cbn [year month day].
    rewrite is_leap_blocks, days_before_year_blocks by lia.
    unfold DI400Y, DI100Y, DI4Y, MINYEAR, MAXYEAR.
    split; [cbv -[Z.add Z.mul]; lia|].
    repeat (apply andb_true_iff; split); try reflexivity; apply Z.leb_le; lia.
  - destruct (Z.eqb_spec n1 4) as [E1|E1].
    + (* the last day of a leap year *)
      cbn [orb].
      assert (r1 = 0 /\ c <= 23) as (-> & Hc') by lia. subst n1.
      replace (a * 400 + 1 + b * 100 + c * 4 + 4 - 1)
        with (400 * a + 100 * b + 4 * c + 3 + 1) by lia.
      unfold toordinal, valid_date, ymd2ord, days_before_month, days_in_month.
      cbn [year month day].
      rewrite is_leap_blocks, days_before_year_blocks by lia.
      replace (c =? 24) with false by (symmetry; apply Z.eqb_neq; lia).
      unfold DI400Y, DI100Y, DI4Y, MINYEAR, MAXYEAR.
      split; [cbv -[Z.add Z.mul]; lia|].
      repeat (apply andb_true_iff; split); try reflexivity; apply Z.leb_le; lia.
    + cbn [orb].
      pose proof (month_day_ok ((n1 =? 3) && (negb (c =? 24) || (b =? 3))) r1 (proj2 Hr4))
        as Hmd.
      unfold month_day_check in Hmd.
      destruct (month_day ((n1 =? 3) && (negb (c =? 24) || (b =? 3))) r1) as [m d].
      repeat (apply andb_true_iff in Hmd; destruct Hmd as [Hmd ?]).
      replace (a * 400 + 1 + b * 100 + c * 4 + n1)
        with (400 * a + 100 * b + 4 * c + n1 + 1) by lia.
      unfold toordinal, valid_date, ymd2ord, days_before_month, days_in_month.
      cbn [year month day].
      rewrite is_leap_blocks, days_before_year_blocks by lia.
      unfold DI400Y, DI100Y, DI4Y, MINYEAR, MAXYEAR.
      repeat match goal with
             | Hx : (_ <=? _) = true |- _ => apply Z.leb_le in Hx
             | Hx : (_ =? _) = true |- _ => apply Z.eqb_eq in Hx
             end.
      split; [lia|].
      repeat (apply andb_true_iff; split); apply Z.leb_le; try assumption; lia.
Qed.

Lemma month_cases (m : Z) :
  1 <= m <= 12 ->
  m = 1 \/ m = 2 \/ m = 3 \/ m = 4 \/ m = 5 \/ m = 6 \/
  m = 7 \/ m = 8 \/ m = 9 \/ m = 10 \/ m = 11 \/ m = 12.
Proof. lia. Qed.

Lemma days_in_month_le (y m : Z) : 1 <= m <= 12 -> days_in_month y m <= 31.
Proof.
  intros Hm. unfold days_in_month.
  destruct (month_cases m Hm) as [->|[->|[->|[->|[->|[->|[->|[->|[->|[->|[->| ->]]]]]]]]]]];
    destruct (is_leap y); vm_compute; discriminate.
Qed.

Lemma day_of_year_le (y m d : Z) :
  1 <= m <= 12 -> 1 <= d <= days_in_month y m ->
  1 <= days_before_month y m + d <= 366.
Proof.
  intros Hm. unfold days_in_month, days_before_month.
  destruct (month_cases m Hm) as [->|[->|[->|[->|[->|[->|[->|[->|[->|[->|[->| ->]]]]]]]]]]];
    destruct (is_leap y); cbv -[Z.le Z.lt Z.add]; lia.
Qed.

Lemma valid_date_bounds (d : cdate) :
  valid_date d = true ->
  1 <= year d <= 9999 /\ 1 <= month d <= 12 /\ 1 <= day d <= days_in_month (year d) (month d).
Proof.
  unfold valid_date, MINYEAR, MAXYEAR. intros H.
  repeat (apply andb_true_iff in H; destruct H as [H ?]).
  repeat match goal with
         | Hx : (_ <=? _) = true |- _ => apply Z.leb_le in Hx
         end.
  lia.
Qed.

(** The day number of a date lies between the first and the last day of the
    calendar. *)
Lemma toordinal_range (d : cdate) :
  valid_date d = true -> 1 <= toordinal d <= MAXORDINAL.
Proof.
  intros H. destruct (valid_date_bounds d H) as (Hy & Hm & Hd).
  pose proof (day_of_year_le _ _ _ Hm Hd) as Hdoy.
  unfold toordinal, ymd2ord, MAXORDINAL.
  destruct d as [y m dd]. cbn [year month day] in *. clear H.
  destruct (Z.eq_dec y 9999) as [E|E].
  - subst y.
    assert (Hdoy' : 1 <= days_before_month 9999 m + dd <= 365).
    { clear Hdoy. revert Hd. unfold days_in_month, days_before_month.
      change (is_leap 9999) with false.
      destruct (month_cases _ Hm) as [->|[->|[->|[->|[->|[->|[->|[->|[->|[->|[->| ->]]]]]]]]]]];
        cbv -[Z.le Z.lt Z.add]; lia. }
    change (days_before_year 9999) with 3651694. lia.
  - assert (Hby : 0 <= days_before_year y <= 3651329).
    { unfold days_before_year. cbv zeta. Z.to_euclidean_division_equations. lia. }
    lia.
Qed.

Lemma digit_cases (k : Z) :
  0 <= k <= 9 ->
  k = 0 \/ k = 1 \/ k = 2 \/ k = 3 \/ k = 4 \/ k = 5 \/ k = 6 \/ k = 7 \/ k = 8 \/ k = 9.
Proof. lia. Qed.

Lemma digit_char_ok (k : Z) :
  0 <= k <= 9 -> is_digit (digit_char k) = true /\ digit_value (digit_char k) = k.
Proof.
  intros Hk.
  destruct (digit_cases k Hk) as [->|[->|[->|[->|[->|[->|[->|[->|[->| ->]]]]]]]]];
    split; reflexivity.
Qed.

Lemma year_check_all : all_from (Z.to_nat 10000) 0 year_check = true.
Proof. vm_compute. reflexivity. Qed.

Lemma zero_pad_year (y : Z) :
  0 <= y <= 9999 -> zero_pad 4 (str_of_int y) = four_digits y.
Proof.
  intros Hy. apply String.eqb_eq.
  apply (all_from_spec year_check _ 0 year_check_all). lia.
Qed.

Lemma parse_year_four_digits (y : Z) (r : string) :
  0 <= y <= 9999 -> parse_year (four_digits y ++ r) = Some (y, r).
Proof.
  intros Hy. unfold four_digits. cbn [append parse_year].
  destruct (digit_char_ok (y / 1000)) as [-> ->];
    [Z.to_euclidean_division_equations; lia|].
  destruct (digit_char_ok (y / 100 mod 10)) as [-> ->];
    [Z.to_euclidean_division_equations; lia|].
  destruct (digit_char_ok (y / 10 mod 10)) as [-> ->];
    [Z.to_euclidean_division_equations; lia|].
  destruct (digit_char_ok (y mod 10)) as [-> ->];
    [Z.to_euclidean_division_equations; lia|].
  cbn [andb]. do 2 f_equal. Z.to_euclidean_division_equations. lia.
Qed.

Lemma month_day_text_check_all : all_from (Z.to_nat 416) 0 month_day_text_check = true.
Proof. vm_compute. reflexivity. Qed.

Lemma match_md_strftime (m d : Z) :
  1 <= m <= 12 -> 1 <= d <= 31 ->
  match_md (zero_pad 2 (str_of_int m) ++ "-" ++ zero_pad 2 (str_of_int d))
  = Some (m, d, EmptyString).
Proof.
  intros Hm Hd.
  assert (H : month_day_text_check (32 * m + d) = true).
  { apply (all_from_spec month_day_text_check _ 0 month_day_text_check_all). lia. }
  unfold month_day_text_check in H. cbv zeta in H.
  replace ((32 * m + d) / 32) with m in H by (Z.to_euclidean_division_equations; lia).
  replace ((32 * m + d) mod 32) with d in H by (Z.to_euclidean_division_equations; lia).
  replace ((1 <=? m) && (m <=? 12) && (1 <=? d) && (d <=? 31)) with true in H
    by (symmetry; repeat (apply andb_true_iff; split); apply Z.leb_le; lia).
  destruct (match_md _) as [[[m' d'] [|c r]]|]; try discriminate.
  apply andb_true_iff in H. destruct H as [H1 H2].
  apply Z.eqb_eq in H1, H2. now subst.
Qed.

Lemma match_ymd_unfold (s : string) :
  match_ymd s =
  match parse_year s with
  | Some (y, r1) =>
      match expect_dash r1 with
      | Some r2 =>
          match match_md r2 with
          | Some (m, d, r5) => Some (mkdate y m d, r5)
          | None => None
          end
      | None => None
      end
  | None => None
  end.
Proof.
  unfold match_ymd, match_md.
  destruct (parse_year s) as [[y r1]|]; [|reflexivity].
  destruct (expect_dash r1) as [r2|]; [|reflexivity].
  destruct (parse_month r2) as [[m r3]|]; [|reflexivity].
  destruct (expect_dash r3) as [r4|]; [|reflexivity].
  destruct (parse_day r4) as [[d r5]|]; reflexivity.
Qed.

(** [strptime] reads back what [strftime] wrote. *)
Lemma strptime_strftime (d : cdate) :
  valid_date d = true -> strptime_date (strftime_date d) = Return d.
Proof.
  intros H. destruct (valid_date_bounds d H) as (Hy & Hm & Hd).
  pose proof (days_in_month_le (year d) (month d) Hm) as Hle.
  unfold strptime_date, strftime_date.
  rewrite match_ymd_unfold.
  rewrite zero_pad_year by lia.
  rewrite parse_year_four_digits by lia.
  pose proof (match_md_strftime (month d) (day d) Hm ltac:(lia)) as Hmd.
  cbn [append expect_dash] in *. rewrite Hmd.
  destruct d as [y m dd]. cbn [year month day] in *.
  replace (y <? MINYEAR) with false by (symmetry; apply Z.ltb_ge; unfold MINYEAR; lia).
  now rewrite H.
Qed.

(** ** [add_transaction] *)

Lemma failure_at_none (k : nat) (e : env) : write_error e = None -> failure_at k e = None.
Proof. unfold failure_at. now intros ->. Qed.

Lemma add_transaction_eq (e : env) (b : bot) (a : float) (c : string) :
  add_transaction a c e b =
  match failure_at 0 e with
  | None =>
      (mkbot (after_transaction e a c (state b)) (Document (after_transaction e a c (state b))),
       Return (float_add (balance (state b)) a))
  | Some f =>
      (mkbot (after_transaction e a c (state b)) (cut_short f (file b)),
       Raise (OSError (failure_message f)))
  end.
Proof.
  unfold add_transaction, bind, modify, datetime_now, save_state, save_nth, get_state, ret.
  cbn [state file]. destruct (failure_at 0 e); reflexivity.
Qed.

Lemma add_transaction_state (e : env) (b : bot) (a : float) (c : string) :
  state (fst (add_transaction a c e b)) = after_transaction e a c (state b).
Proof. rewrite add_transaction_eq. destruct (failure_at 0 e); reflexivity. Qed.

Lemma last_n_length {A : Type} (n : nat) (l : list A) :
  (List.length (last_n n l) <= n)%nat.
Proof. unfold last_n. rewrite length_skipn. lia. Qed.

Lemma last_n_short {A : Type} (n : nat) (l : list A) :
  (List.length l <= n)%nat -> last_n n l = l.
Proof.
  intros H. unfold last_n. replace (List.length l - n)%nat with 0%nat by lia. reflexivity.
Qed.

Lemma last_n_full {A : Type} (n : nat) (x y : A) (l : list A) :
  List.length l = n -> last_n (S n) ((x :: l) ++ [y]) = (l ++ [y])%list.
Proof.
  intros H. unfold last_n. rewrite length_app. cbn [List.length].
  replace (S (List.length l) + 1 - S n)%nat with 1%nat by lia. reflexivity.
Qed.

Lemma apply_all_balance (calls : list call) (b : bot) :
  balance (state (apply_all calls b))
  = fold_left float_add (map call_amount calls) (balance (state b)).
Proof.
  unfold apply_all. revert b.
  induction calls as [|c calls IH]; intros b; [reflexivity|].
  cbn [fold_left map]. rewrite IH, add_transaction_state. reflexivity.
Qed.

(** ** [handle_command] *)
Lemma length_gt_1 {A : Type} (x y : A) (l : list A) :
  (1 <? Z.of_nat (List.length (x :: y :: l))) = true.
Proof. apply Z.ltb_lt. cbn [List.length]. lia. Qed.

Lemma comment_of_parts (p0 tok : string) (rest : list string) :
  (if 2 <? Z.of_nat (List.length (p0 :: tok :: rest)) then join " " (slice_from 2 (p0 :: tok :: rest))
   else EmptyString) = join " " rest.
Proof.
  destruct rest as [|r rest]; [reflexivity|].
  replace (2 <? Z.of_nat (List.length (p0 :: tok :: r :: rest))) with true
    by (symmetry; apply Z.ltb_lt; cbn [List.length]; lia).
  reflexivity.
Qed.

Lemma float_of_str_raises (s : string) (x : exn) :
  float_of_str s = Raise x ->
  x = ValueError ("could not convert string to float: " ++ repr s).
Proof.
  unfold float_of_str.
  destruct (float_strip s) as [|c t] eqn:Es.
  - cbn. intros H. now inversion H.
  - set (sb := match String c t with
               | String "+" r => (false, r)
               | String "-" r => (true, r)
               | _ => (false, String c t)
               end).
    destruct sb as [neg body].
    destruct ((lower body =? "inf")%string || (lower body =? "infinity")%string);
      [discriminate|].
    destruct (lower body =? "nan")%string; [discriminate|].
    destruct (number body) as [[[ip fp] r]|]; [|intros H; now inversion H].
    destruct (exponent r); [discriminate|intros H; now inversion H].
Qed.

Lemma handle_balance (text : string) (e : env) (b : bot) (p0 : string) (rest : list string) :
  split text = p0 :: rest -> lower p0 = "/balance" ->
  handle_command text e b
  = (b, Return (Some ("💰 Balance: £" ++ format_2f (balance (state b))))).
Proof.
  intros Hs Hc. unfold handle_command. rewrite Hs. cbv zeta. rewrite Hc.
  eval_conds. reflexivity.
Qed.

Lemma str_in_cases3 (x a1 a2 a3 : string) :
  str_in x [a1; a2; a3] = true -> x = a1 \/ x = a2 \/ x = a3.
Proof.
  unfold str_in. cbn [existsb]. intros H.
  repeat (apply orb_true_iff in H; destruct H as [H|H]);
    try discriminate; apply String.eqb_eq in H; auto.
Qed.

Lemma handle_transaction (text : string) (e : env) (b : bot)
    (p0 tok : string) (rest : list string) (x : float) :
  split text = p0 :: tok :: rest ->
  str_in (lower p0) transaction_commands = true ->
  float_of_str tok = Return x ->
  let amt := signed_amount (lower p0) x in
  let s' := after_transaction e amt (join " " rest) (state b) in
  handle_command text e b =
  match failure_at 0 e with
  | None =>
      (mkbot s' (Document s'),
       Return (Some ("✅ " ++ action_word (lower p0) ++ " £" ++ format_2f (float_abs amt)
                     ++ ". New Balance: £" ++ format_2f (balance s'))))
  | Some f =>
      (mkbot s' (cut_short f (file b)), Return (Some ("⚠️ Error: " ++ failure_message f)))
  end.
Proof.
  intros Hs Hc Hf amt s'. subst amt s'. unfold handle_command. rewrite Hs. cbv zeta.
  rewrite comment_of_parts, length_gt_1. cbn [nth]. rewrite Hf.
  unfold signed_amount, action_word.
  destruct (str_in_cases3 _ _ _ _ Hc) as [E|[E|E]]; rewrite E; eval_conds;
    unfold try_except, bind, lift, get_state, ret; rewrite add_transaction_eq;
    destruct (failure_at 0 e); reflexivity.
Qed.

Lemma handle_transaction_invalid (text : string) (e : env) (b : bot)
    (p0 tok : string) (rest : list string) (x : exn) :
  split text = p0 :: tok :: rest ->
  str_in (lower p0) transaction_commands = true ->
  float_of_str tok = Raise x ->
  handle_command text e b = (b, Return (Some invalid_amount_reply)).
Proof.
  intros Hs Hc Hf. pose proof (float_of_str_raises _ _ Hf) as Hx.
  unfold handle_command. rewrite Hs. cbv zeta.
  rewrite length_gt_1. cbn [nth]. rewrite Hf, Hx.
  destruct (str_in_cases3 _ _ _ _ Hc) as [E|[E|E]]; rewrite E; eval_conds; reflexivity.
Qed.

Lemma handle_set (text : string) (e : env) (b : bot)
    (p0 tok : string) (rest : list string) (w : float) :
  split text = p0 :: tok :: rest -> lower p0 = "/set" ->
  float_of_str tok = Return w ->
  let s' := set_weekly_amount w (state b) in
  handle_command text e b =
  match failure_at 0 e with
  | None =>
      (mkbot s' (Document s'), Return (Some ("⚙️ Weekly amount set to £" ++ format_2f w)))
  | Some f =>
      (mkbot s' (cut_short f (file b)), Return (Some ("⚠️ Error: " ++ failure_message f)))
  end.
Proof.
  intros Hs Hc Hf s'. subst s'. unfold handle_command. rewrite Hs. cbv zeta.
  rewrite length_gt_1. cbn [nth]. rewrite Hf, Hc. eval_conds.
  unfold try_except, bind, lift, modify, save_state, save_nth, get_state, ret.
  cbn [state file]. destruct (failure_at 0 e); reflexivity.
Qed.

Lemma handle_set_invalid (text : string) (e : env) (b : bot)
    (p0 tok : string) (rest : list string) (x : exn) :
  split text = p0 :: tok :: rest -> lower p0 = "/set" ->
  float_of_str tok = Raise x ->
  handle_command text e b
  = (b, Return (Some ("⚠️ Error: could not convert string to float: " ++ repr tok))).
Proof.
  intros Hs Hc Hf. pose proof (float_of_str_raises _ _ Hf) as Hx.
  unfold handle_command. rewrite Hs. cbv zeta.
  rewrite length_gt_1. cbn [nth]. rewrite Hf, Hc, Hx. eval_conds. reflexivity.
Qed.

Lemma str_in_false_cons (x a : string) (l : list string) :
  str_in x (a :: l) = false -> (x =? a)%string = false /\ str_in x l = false.
Proof. unfold str_in. cbn [existsb]. intros H. now apply orb_false_iff in H. Qed.

Lemma handle_unknown (text : string) (e : env) (b : bot) (p0 : string) (rest : list string) :
  split text = p0 :: rest -> str_in (lower p0) known_commands = false ->
  handle_command text e b = (b, Return None).
Proof.
  intros Hs Hk. unfold handle_command. rewrite Hs. cbv zeta.
  unfold known_commands in Hk.
  repeat (apply str_in_false_cons in Hk; let H := fresh "Hn" in destruct Hk as [H Hk]).
  unfold str_in. cbn [existsb]. rewrite Hn, Hn0, Hn1, Hn2, Hn3, Hn4, Hn5, Hn6.
  reflexivity.
Qed.

Lemma handle_no_amount (text : string) (e : env) (b : bot) (p0 : string) :
  split text = [p0] -> str_in (lower p0) amount_commands = true ->
  handle_command text e b = (b, Return None).
Proof.
  intros Hs Hc. unfold handle_command. rewrite Hs. cbv zeta.
  unfold amount_commands, str_in in Hc. cbn [existsb] in Hc.
  repeat (apply orb_true_iff in Hc; destruct Hc as [Hc|Hc]);
    try discriminate; apply String.eqb_eq in Hc; rewrite Hc; eval_conds; reflexivity.
Qed.

(** The commands that change nothing. *)
Lemma handle_read_only (text : string) (e : env) (b : bot) (p0 : string) (rest : list string) :
  split text = p0 :: rest ->
  (str_in (lower p0) transaction_commands && (1 <? Z.of_nat (List.length (p0 :: rest)))) = false ->
  ((lower p0 =? "/set")%string && (1 <? Z.of_nat (List.length (p0 :: rest)))) = false ->
  fst (handle_command text e b) = b.
Proof.
  intros Hs Ht Hset. unfold handle_command. rewrite Hs. cbv zeta.
  unfold transaction_commands in Ht. rewrite Ht, Hset.
  destruct (str_in (lower p0) ["/usage"; "/help"]); [reflexivity|].
  destruct (lower p0 =? "/balance")%string; [reflexivity|].
  destruct (lower p0 =? "/history")%string; [|reflexivity].
  unfold try_except, bind, get_state, ret.
  destruct (history (state b)); reflexivity.
Qed.

Lemma handle_command_state (text : string) (e : env) (b : bot) :
  state (fst (handle_command text e b)) = state_after_command text e (state b).
Proof.
  unfold state_after_command.
  destruct (split text) as [|p0 [|tok rest]] eqn:Hs.
  - unfold handle_command. rewrite Hs. reflexivity.
  - rewrite (handle_read_only text e b p0 [] Hs); [reflexivity| |];
      cbn [List.length]; apply andb_false_r.
  - destruct (str_in (lower p0) transaction_commands) eqn:Ht.
    + destruct (float_of_str tok) as [x|x] eqn:Hf.
      * rewrite (handle_transaction text e b p0 tok rest x Hs Ht Hf).
        destruct (failure_at 0 e); reflexivity.
      * rewrite (handle_transaction_invalid text e b p0 tok rest x Hs Ht Hf). reflexivity.
    + destruct (lower p0 =? "/set")%string eqn:Hset.
      * apply String.eqb_eq in Hset.
        destruct (float_of_str tok) as [w|x] eqn:Hf.
        -- rewrite (handle_set text e b p0 tok rest w Hs Hset Hf).
           destruct (failure_at 0 e); reflexivity.
        -- rewrite (handle_set_invalid text e b p0 tok rest x Hs Hset Hf). reflexivity.
      * rewrite (handle_read_only text e b p0 (tok :: rest) Hs); [reflexivity| |].
        -- now rewrite Ht.
        -- now rewrite Hset.
Qed.

(** ** [weekly_task] *)

(** A turn of the loop, branch by branch. *)
Lemma weekly_task_eq (e : env) (b : bot) :
  weekly_task tt e b =
  match strptime_date (last_weekly_update (state b)) with
  | Raise x => (b, Raise x)
  | Return last =>
      if 7 <=? days_since (now e) last then
        let s1 :=
          after_transaction e (accrual_total e last (state b)) (accrual_comment e last)
            (state b) in
        match failure_at 0 e with
        | Some f => (mkbot s1 (cut_short f (file b)), Raise (OSError (failure_message f)))
        | None =>
            match add_weeks last (accrual_weeks e last) with
            | Raise x => (mkbot s1 (Document s1), Raise x)
            | Return d =>
                let s2 := set_last_weekly_update (strftime_date d) s1 in
                match failure_at 1 e with
                | Some f =>
                    (mkbot s2 (cut_short f (Document s1)), Raise (OSError (failure_message f)))
                | None => (mkbot s2 (Document s2), Return tt)
                end
            end
        end
      else (b, Return tt)
  end.
Proof.
  unfold weekly_task, bind, datetime_now, get_state, lift.
  destruct (strptime_date (last_weekly_update (state b))) as [last|x]; [|reflexivity].
  destruct (7 <=? days_since (now e) last); [|reflexivity].
  rewrite add_transaction_eq.
  unfold accrual_total, accrual_comment, accrual_weeks.
  destruct (failure_at 0 e) eqn:Hw; [reflexivity|].
  cbn [state]. destruct (add_weeks last (days_since (now e) last / 7)); [|reflexivity].
  unfold modify, save_nth. cbn [state file]. destruct (failure_at 1 e); reflexivity.
Qed.

Lemma strptime_valid (s : string) (d : cdate) :
  strptime_date s = Return d -> valid_date d = true.
Proof.
  unfold strptime_date.
  destruct (match_ymd s) as [[d' [|c r]]|]; try discriminate.
  destruct (year d' <? MINYEAR); [discriminate|].
  destruct (valid_date d') eqn:Hv; [|discriminate].
  intros H. inversion H. now subst.
Qed.

Lemma add_weeks_returns (last d : cdate) (w : Z) :
  add_weeks last w = Return d ->
  d = ord2ymd (toordinal last + 7 * w)
  /\ toordinal d = toordinal last + 7 * w
  /\ strptime_date (strftime_date d) = Return d.
Proof.
  unfold add_weeks, fromordinal.
  destruct ((1 <=? toordinal last + 7 * w) && (toordinal last + 7 * w <=? MAXORDINAL)) eqn:Hr;
    [|discriminate].
  intros H. inversion H as [Hd]. clear H.
  apply andb_true_iff in Hr. destruct Hr as [H1 H2].
  apply Z.leb_le in H1, H2.
  destruct (ord2ymd_correct (toordinal last + 7 * w)) as [Ho Hv]; [lia|].
  repeat split; [exact Ho|]. now apply strptime_strftime.
Qed.

Lemma add_weeks_in_range (e : env) (last : cdate) :
  valid_date (today (now e)) = true -> valid_date last = true ->
  7 <= days_since (now e) last ->
  add_weeks last (accrual_weeks e last)
  = Return (ord2ymd (toordinal last + 7 * accrual_weeks e last)).
Proof.
  intros Hn Hl Hd. unfold add_weeks, fromordinal, accrual_weeks.
  pose proof (toordinal_range _ Hn) as Rn. pose proof (toordinal_range _ Hl) as Rl.
  unfold days_since in *.
  set (n := toordinal (today (now e))) in *. set (l := toordinal last) in *.
  assert (Hw : 0 <= 7 * ((n - l) / 7) <= n - l).
  { Z.to_euclidean_division_equations. lia. }
  replace ((1 <=? l + 7 * ((n - l) / 7)) && (l + 7 * ((n - l) / 7) <=? MAXORDINAL)) with true;
    [reflexivity|].
  symmetry. apply andb_true_iff. split; apply Z.leb_le; lia.
Qed.

Lemma remaining_days (n l : Z) : n - (l + 7 * ((n - l) / 7)) = (n - l) mod 7.
Proof. Z.to_euclidean_division_equations. lia. Qed.

(** After a turn that returned, a turn at the same clock changes nothing. *)
Lemma weekly_task_stable (e : env) (b b1 : bot) :
  weekly_task tt e b = (b1, Return tt) -> weekly_task tt e b1 = (b1, Return tt).
Proof.
  rewrite weekly_task_eq.
  destruct (strptime_date (last_weekly_update (state b))) as [last|x] eqn:Hp; [|discriminate].
  destruct (7 <=? days_since (now e) last) eqn:Hd.
  - cbv zeta. destruct (failure_at 0 e) eqn:Hw; [discriminate|].
    destruct (add_weeks last (accrual_weeks e last)) as [d|x] eqn:Ha; [|discriminate].
    destruct (failure_at 1 e) eqn:Hw1; [discriminate|].
    intros H. inversion H as [Hb]. clear H.
    destruct (add_weeks_returns _ _ _ Ha) as (_ & Ho & Hrt).
    rewrite weekly_task_eq. cbn [state last_weekly_update set_last_weekly_update].
    rewrite Hrt.
    replace (7 <=? days_since (now e) d) with false; [reflexivity|].
    symmetry. apply Z.leb_gt. unfold days_since, accrual_weeks in *. rewrite Ho.
    unfold days_since. rewrite remaining_days.
    apply Z.mod_pos_bound. lia.
  - intros H. inversion H. subst b1. rewrite weekly_task_eq, Hp, Hd. reflexivity.
Qed.

Lemma weekly_loop_stable (e : env) (b : bot) (k : nat) :
  weekly_task tt e b = (b, Return tt) -> weekly_loop k e b = (b, Return tt).
Proof.
  intros H. induction k as [|k IH]; [reflexivity|].
  cbn [weekly_loop]. unfold bind. rewrite H. exact IH.
Qed.

Lemma weekly_loop_once (e : env) (b : bot) (k : nat) :
  fst (weekly_loop (S k) e b) = fst (weekly_task tt e b).
Proof.
  cbn [weekly_loop]. unfold bind.
  destruct (weekly_task tt e b) as [b1 [[]|x]] eqn:H; [|reflexivity].
  rewrite (weekly_loop_stable e b1 k (weekly_task_stable e b b1 H)). reflexivity.
Qed.

Lemma weekly_task_state (e : env) (b : bot) :
  state (fst (weekly_task tt e b)) = state b
  \/ exists total comment,
       state (fst (weekly_task tt e b)) = after_transaction e total comment (state b)
       \/ exists d, state (fst (weekly_task tt e b))
                    = set_last_weekly_update d (after_transaction e total comment (state b)).
Proof.
  rewrite weekly_task_eq.
  destruct (strptime_date (last_weekly_update (state b))) as [last|x]; [|now left].
  destruct (7 <=? days_since (now e) last); [|now left].
  right. exists (accrual_total e last (state b)), (accrual_comment e last). cbv zeta.
  destruct (failure_at 0 e); [now left|].
  destruct (add_weeks last (accrual_weeks e last)) as [d|x]; [|now left].
  right. exists (strftime_date d). destruct (failure_at 1 e); reflexivity.
Qed.

(** ** Two decimal places *)
Lemma pad2_check_all : all_from (Z.to_nat 100) 0 pad2_check = true.
Proof. vm_compute. reflexivity. Qed.

Lemma all_digits_uint (u : Decimal.uint) : all_digits (NilEmpty.string_of_uint u) = true.
Proof. induction u; cbn [NilEmpty.string_of_uint all_digits]; try rewrite IHu; reflexivity. Qed.

Lemma str_of_int_digits (n : Z) :
  0 <= n -> str_of_int n <> EmptyString /\ all_digits (str_of_int n) = true.
Proof.
  intros Hn. unfold str_of_int.
  replace (n <? 0) with false by (symmetry; apply Z.ltb_ge; lia).
  unfold str_of_nat_digits, NilZero.string_of_uint.
  destruct (N.to_uint (Z.to_N n)) eqn:E;
    try (split; [discriminate | reflexivity]);
    (split; [cbn [NilEmpty.string_of_uint]; discriminate | apply all_digits_uint]).
Qed.

Lemma round_hundredths_nonneg (m : positive) (e : Z) : 0 <= round_hundredths m e.
Proof.
  unfold round_hundredths. destruct (0 <=? e) eqn:He.
  - apply Z.leb_le in He. assert (0 < 2 ^ e) by (apply Z.pow_pos_nonneg; lia). nia.
  - apply Z.leb_gt in He. cbv zeta.
    assert (Hd : 0 < 2 ^ (- e)) by (apply Z.pow_pos_nonneg; lia).
    assert (Hq : 0 <= Z.pos m * 100 / 2 ^ (- e)) by (apply Z.div_pos; lia).
    destruct (2 * ((Z.pos m * 100) mod 2 ^ (- e)) ?= 2 ^ (- e)); [|lia|lia].
    destruct (Z.even _); lia.
Qed.

Lemma digit_is_no_point (c : ascii) : is_digit c = true -> (c =? ".")%char = false.
Proof.
  intros H. destruct (Ascii.eqb_spec c "."); [subst c; discriminate H|reflexivity].
Qed.

Lemma digit_is_no_minus (c : ascii) : is_digit c = true -> (c =? "-")%char = false.
Proof.
  intros H. destruct (Ascii.eqb_spec c "-"); [subst c; discriminate H|reflexivity].
Qed.

Lemma fraction_follows_digits (ip fp : string) :
  all_digits ip = true -> String.length fp = 2%nat -> all_digits fp = true ->
  fraction_follows (ip ++ "." ++ fp) = true.
Proof.
  intros Hi Hl Hf. induction ip as [|c ip IH].
  - destruct fp as [|a [|b [|c fp]]]; try discriminate Hl.
    cbn [all_digits] in Hf. rewrite andb_true_r in Hf. exact Hf.
  - cbn [all_digits] in Hi. apply andb_true_iff in Hi. destruct Hi as [Hc Hi].
    cbn [append fraction_follows]. rewrite (digit_is_no_point c Hc), Hc. now apply IH.
Qed.

Lemma fixed2_two_decimals (neg : bool) (n : Z) :
  0 <= n -> has_two_decimals (fixed2 neg n) = true.
Proof.
  intros Hn. unfold fixed2.
  assert (Hq : 0 <= n / 100) by (apply Z.div_pos; lia).
  assert (Hr : 0 <= n mod 100 < 100) by (apply Z.mod_pos_bound; lia).
  destruct (str_of_int_digits _ Hq) as [H1 H2].
  assert (Hp : pad2_check (n mod 100) = true).
  { apply (all_from_spec pad2_check _ 0 pad2_check_all). lia. }
  unfold pad2_check in Hp. cbv zeta in Hp. apply andb_true_iff in Hp.
  destruct Hp as [Hl Hd]. apply Nat.eqb_eq in Hl.
  destruct (str_of_int (n / 100)) as [|c ip]; [contradiction|].
  cbn [all_digits] in H2. apply andb_true_iff in H2. destruct H2 as [Hc Hi].
  assert (U : unsigned_two_decimals
                (String c ip ++ "." ++ zero_pad 2 (str_of_int (n mod 100))) = true).
  { cbn [append unsigned_two_decimals]. rewrite Hc. now apply fraction_follows_digits. }
  destruct neg.
  - exact U.
  - cbn [append has_two_decimals]. rewrite (digit_is_no_minus c Hc). exact U.
Qed.

Lemma format_2f_two_decimals (x : float) :
  has_two_decimals (format_2f x) = is_finite x.
Proof.
  destruct x as [s|s| |s m e]; cbn [format_2f is_finite].
  - apply fixed2_two_decimals. lia.
  - now destruct s.
  - reflexivity.
  - apply fixed2_two_decimals, round_hundredths_nonneg.
Qed.

(** ** The nearest hundredth *)

Lemma two_pow_pos (p : positive) : 2 ^ Zpos p = Zpos (2 ^ p).
Proof. now rewrite Pos2Z.inj_pow. Qed.

Lemma Qpower_two (e : Z) :
  (Qpower 2 e == if 0 <=? e then inject_Z (2 ^ e) else / inject_Z (2 ^ (- e)))%Q.
Proof.
  destruct e as [|p|p]; cbn [Z.leb Z.compare Z.opp].
  - reflexivity.
  - rewrite Zpower_Qpower by lia. reflexivity.
  - change (Zneg p) with (- Zpos p). rewrite Qpower_opp.
    rewrite Zpower_Qpower by lia. reflexivity.
Qed.

Lemma Qabs_value (s : bool) (m : positive) (e : Z) :
  (Qabs (Qred (inject_Z (cond_Zopp s (Zpos m)) * Qpower 2 e))
   == inject_Z (Zpos m) * Qpower 2 e)%Q.
Proof.
  rewrite Qred_correct, Qabs_Qmult.
  assert (H2 : (0 < Qpower 2 e)%Q) by (apply Qpower_0_lt; reflexivity).
  rewrite (Qabs_pos (Qpower 2 e)) by now apply Qlt_le_weak.
  apply Qmult_comp; [|reflexivity].
  destruct s; cbn [cond_Zopp].
  - change (inject_Z (- Zpos m)) with (- inject_Z (Zpos m))%Q.
    rewrite Qabs_opp. apply Qabs_pos. discriminate.
  - apply Qabs_pos. discriminate.
Qed.

(** The distance of [a / d] to the integer [n]. *)
Lemma Qabs_frac (a n : Z) (d : positive) :
  (Qabs (inject_Z a / inject_Z (Zpos d) - inject_Z n) == Z.abs (a - n * Zpos d) # d)%Q.
Proof.
  rewrite <- Qmake_Qdiv.
  unfold Qminus, Qopp, inject_Z, Qplus, Qabs, Qeq. cbn [Qnum Qden].
  rewrite Pos.mul_1_r. f_equal. f_equal. lia.
Qed.

(** [round_hundredths] is the integer nearest to a hundred times the
    absolute value, the even one of the two when it lies half way. *)
Lemma round_hundredths_near (m : positive) (e : Z) (s : bool) :
  let v := Qred (inject_Z (cond_Zopp s (Zpos m)) * Qpower 2 e) in
  let n := round_hundredths m e in
  (Qabs (Qabs v * 100 - inject_Z n) <= 1 # 2)%Q
  /\ ((Qabs (Qabs v * 100 - inject_Z n) == 1 # 2)%Q -> Z.even n = true).
Proof.
  intros v n. subst v.
  assert (E : (Qabs (Qabs (Qred (inject_Z (cond_Zopp s (Zpos m)) * Qpower 2 e)) * 100
                     - inject_Z n)
               == if 0 <=? e then 0
                  else Z.abs (Zpos m * 100 - n * 2 ^ (- e)) # Z.to_pos (2 ^ (- e)))%Q).
  { rewrite Qabs_value, Qpower_two. subst n. unfold round_hundredths.
    destruct (0 <=? e) eqn:He.
    - change 100%Q with (inject_Z 100). rewrite <- !inject_Z_mult.
      unfold Qminus. rewrite Qplus_opp_r. reflexivity.
    - apply Z.leb_gt in He. destruct e as [|p|p]; try lia. cbn [Z.opp].
      rewrite two_pow_pos. cbn [Z.to_pos].
      rewrite <- Qabs_frac. apply Qabs_wd. apply Qplus_comp; [|reflexivity].
      change 100%Q with (inject_Z 100). unfold Qdiv.
      rewrite inject_Z_mult. ring. }
  rewrite E. clear E. subst n. unfold round_hundredths.
  destruct (0 <=? e) eqn:He; [split; [discriminate|intros H; discriminate H]|].
  apply Z.leb_gt in He. destruct e as [|p|p]; try lia. cbn [Z.opp].
  rewrite two_pow_pos. cbn [Z.to_pos]. cbv zeta.
  set (d := Zpos (2 ^ p)). set (a := Zpos m * 100).
  assert (Hd : 0 < d) by (subst d; lia).
  pose proof (Z.div_mod a d ltac:(lia)) as Hdm.
  pose proof (Z.mod_pos_bound a d Hd) as Hr.
  unfold Qle, Qeq. cbn [Qnum Qden]. fold d.
  set (q := a / d) in *. set (r := a mod d) in *. clearbody q r.
  assert (Hq : a - q * d = r) by lia.
  assert (Hq1 : a - (q + 1) * d = r - d) by lia.
  destruct (Z.compare_spec (2 * r) d) as [Hc|Hc|Hc].
  - destruct (Z.even q) eqn:Hev.
    + rewrite Hq. split; [lia|intros _; exact Hev].
    + rewrite Hq1. split; [lia|]. intros _. rewrite Z.even_add, Hev. reflexivity.
  - rewrite Hq. split; [lia|]. intros H. lia.
  - rewrite Hq1. split; [lia|]. intros H. lia.
Qed.

(** ** The claims

    C1, counterexample.  From a balance of 0.0, [add_transaction] is called
    with 1e16, 1.0 and 1.0 (the floats [/add 1e16] and [/add 1] parse to).
    The balance ends at 1e16, the exact sum of the three amounts is
    10000000000000002, itself a float: each addition of 1.0 to 1e16 is a tie
    that rounds back to 1e16. *)
Lemma balance_misses_exact_sum :
  exact_sum_holds fresh big_then_small = false
  /\ float_of_str "1e16" = Return ten_quadrillion
  /\ float_of_str "1" = Return one
  /\ balance (state (apply_all big_then_small fresh)) = ten_quadrillion
  /\ float_value ten_quadrillion = Some (10000000000000000 # 1)
  /\ sum_values (map call_amount big_then_small) = Some (10000000000000002 # 1).
Proof. vm_compute. repeat split; reflexivity. Qed.

(** C1, amended.  For every sequence of calls of [add_transaction], whatever
    its length and whatever the history kept, the final balance is the
    initial balance to which the amounts were added one by one, in the order
    of the calls, by the float addition of the program (binary64, each sum
    rounded to nearest, ties to even).  One call adds its amount argument to
    the balance and returns the new balance when the state file can be
    written; when it cannot, the balance in memory is updated all the same
    and the OSError is raised. *)
Theorem balance_accumulates (calls : list call) (b : bot) :
  balance (state (apply_all calls b))
  = fold_left float_add (map call_amount calls) (balance (state b))
  /\ (forall e a c,
        balance (state (fst (add_transaction a c e b))) = float_add (balance (state b)) a
        /\ snd (add_transaction a c e b)
           = match failure_at 0 e with
             | None => Return (float_add (balance (state b)) a)
             | Some f => Raise (OSError (failure_message f))
             end).
Proof.
  split; [apply apply_all_balance|].
  intros e a c. rewrite add_transaction_eq. destruct (failure_at 0 e); split; reflexivity.
Qed.

(** C2 and its lemmas. *)
Lemma after_transaction_history_length (e : env) (a : float) (c : string) (s : ledger) :
  (List.length (history (after_transaction e a c s)) <= 10)%nat.
Proof. apply last_n_length. Qed.

Lemma state_after_command_history (text : string) (e : env) (s : ledger) :
  (List.length (history s) <= 10)%nat ->
  (List.length (history (state_after_command text e s)) <= 10)%nat.
Proof.
  intros H. unfold state_after_command.
  destruct (split text) as [|p0 [|tok rest]]; try assumption.
  destruct (str_in (lower p0) transaction_commands).
  - destruct (float_of_str tok); [apply after_transaction_history_length|assumption].
  - destruct (lower p0 =? "/set")%string; [|assumption].
    destruct (float_of_str tok); assumption.
Qed.

Lemma reachable_history (b0 b : bot) :
  (List.length (history (state b0)) <= 10)%nat -> reachable b0 b ->
  (List.length (history (state b)) <= 10)%nat.
Proof.
  intros H0 Hr. induction Hr as [|text e b Hr IH|e b Hr IH]; [assumption| |].
  - rewrite handle_command_state. now apply state_after_command_history.
  - destruct (weekly_task_state e b) as [E|(total & cmt & [E|[d E]])]; rewrite E;
      [assumption| |]; apply after_transaction_history_length.
Qed.

(** C2.  In every world the two loops reach from a start whose history
    holds at most ten entries, the history holds at most ten entries, and so
    it does after one more [add_transaction]; that call appends the new entry
    last, behind the whole history when it held fewer than ten entries and
    behind all but its oldest entry when it was full, the order of the
    entries kept. *)
Theorem history_at_most_ten (b0 b : bot) (e : env) (a : float) (c : string) :
  (List.length (history (state b0)) <= 10)%nat -> reachable b0 b ->
  (List.length (history (state b)) <= 10)%nat
  /\ (List.length (history (state (fst (add_transaction a c e b)))) <= 10)%nat
  /\ history (state (fst (add_transaction a c e b)))
     = ((if (List.length (history (state b)) <? 10)%nat then history (state b)
         else tl (history (state b))) ++ [new_entry e a c])%list.
Proof.
  intros H0 Hr. pose proof (reachable_history b0 b H0 Hr) as Hb.
  rewrite add_transaction_state. split; [exact Hb|].
  split; [apply after_transaction_history_length|].
  unfold after_transaction. cbn [history].
  destruct (List.length (history (state b)) <? 10)%nat eqn:Hl.
  - apply Nat.ltb_lt in Hl. apply last_n_short. rewrite length_app. cbn [List.length]. lia.
  - apply Nat.ltb_ge in Hl. destruct (history (state b)) as [|old rest] eqn:Hh.
    + cbn [List.length] in Hl. lia.
    + cbn [tl]. apply last_n_full. cbn [List.length] in Hl, Hb. lia.
Qed.

(** C2, witness: an eleventh transaction on the full history 1..10 leaves
    2..10 followed by the new entry. *)
Lemma history_at_most_ten_witness :
  (List.length (history (state full_bot)) <= 10)%nat
  /\ (List.length (history (state (fst (add_transaction ten "gift" calm full_bot)))) <= 10)%nat
  /\ history (state (fst (add_transaction ten "gift" calm full_bot)))
     = (map entry [2; 3; 4; 5; 6; 7; 8; 9; 10] ++ [new_entry calm ten "gift"])%list.
Proof.
  apply (history_at_most_ten full_bot full_bot calm ten "gift").
  - vm_compute. lia.
  - apply reach_start.
Defined.

(** C3.  When the stored date parses, the clock shows a date of the calendar
    at least 7 days later and the state file can be written, one turn of
    [weekly_task] returns and leaves the state of exactly one
    [add_transaction] of [weeks * weekly_amount], with [weeks] the whole
    weeks elapsed, followed by the date moved forward by exactly
    [7 * weeks] days: the new text parses to the date [7 * weeks] days after
    the old one, and the days still elapsed are the remainder modulo 7. *)
Theorem weekly_task_accrues (e : env) (b : bot) (last : cdate) :
  strptime_date (last_weekly_update (state b)) = Return last ->
  valid_date (today (now e)) = true ->
  write_error e = None ->
  7 <= days_since (now e) last ->
  let weeks := days_since (now e) last / 7 in
  let total := float_mul (float_of_int weeks) (weekly_amount (state b)) in
  let comment := "Auto-allowance (" ++ str_of_int weeks ++ " wks)" in
  let b1 := fst (add_transaction total comment e b) in
  let next := ord2ymd (toordinal last + 7 * weeks) in
  let s2 := set_last_weekly_update (strftime_date next) (state b1) in
  weekly_task tt e b = (mkbot s2 (Document s2), Return tt)
  /\ balance (state b1) = float_add (balance (state b)) total
  /\ history (state b1) = last_n 10 (history (state b) ++ [new_entry e total comment])
  /\ strptime_date (strftime_date next) = Return next
  /\ toordinal next = toordinal last + 7 * weeks
  /\ days_since (now e) next = days_since (now e) last mod 7.
Proof.
  intros Hp Hn Hw Hd weeks total comment b1 next s2.
  pose proof (strptime_valid _ _ Hp) as Hl.
  pose proof (add_weeks_in_range e last Hn Hl Hd) as Ha.
  destruct (add_weeks_returns _ _ _ Ha) as (_ & Ho & Hrt).
  change (days_since (now e) last / 7) with (accrual_weeks e last) in weeks.
  split.
  - rewrite weekly_task_eq, Hp.
    replace (7 <=? days_since (now e) last) with true by (symmetry; now apply Z.leb_le).
    cbv zeta. rewrite !(failure_at_none _ e Hw), Ha.
    subst s2 b1. rewrite add_transaction_state. reflexivity.
  - subst b1. rewrite add_transaction_state. repeat split; try assumption.
    subst next weeks. unfold days_since at 1. rewrite Ho.
    unfold accrual_weeks, days_since. apply remaining_days.
Qed.

(** C3, witness: 17 days after the last accrual with a weekly amount of 5,
    one turn appends a single transaction of 10 (2 weeks) and moves the date
    from 2024-11-04 to 2024-11-18, 14 days, 3 days being left. *)
Lemma weekly_task_accrues_witness :
  weekly_task tt calm owed_17_days
  = (let s := mkledger ten five "2024-11-18"
                [mktransaction "2024-11-21 12:00" ten "Auto-allowance (2 wks)"] in
     (mkbot s (Document s), Return tt))
  /\ days_since (now calm) (mkdate 2024 11 4) = 17
  /\ toordinal (mkdate 2024 11 18) = toordinal (mkdate 2024 11 4) + 14
  /\ days_since (now calm) (mkdate 2024 11 18) = 3.
Proof.
  pose proof (weekly_task_accrues calm owed_17_days (mkdate 2024 11 4)) as H.
  assert (H1 : strptime_date (last_weekly_update (state owed_17_days))
               = Return (mkdate 2024 11 4)) by (vm_compute; reflexivity).
  assert (H2 : valid_date (today (now calm)) = true) by (vm_compute; reflexivity).
  assert (H3 : write_error calm = None) by reflexivity.
  assert (H4 : 7 <= days_since (now calm) (mkdate 2024 11 4)) by (vm_compute; discriminate).
  specialize (H H1 H2 H3 H4). cbv zeta in H.
  destruct H as (Hrun & _ & _ & _ & Hord & Hrem).
  split; [|split; [|split]].
  - rewrite Hrun. vm_compute. reflexivity.
  - vm_compute. reflexivity.
  - vm_compute. reflexivity.
  - vm_compute. reflexivity.
Defined.

(** C4.  Under a fixed clock, for every world: any number of turns of the
    loop of [weekly_task] leaves the world one turn leaves; the state after
    the turns is either unchanged or that of a single transaction; and when
    fewer than 7 days have elapsed since the stored date, the turns return
    and change nothing. *)
Theorem weekly_task_idempotent (e : env) (b : bot) (k : nat) :
  fst (weekly_loop (S k) e b) = fst (weekly_task tt e b)
  /\ (state (fst (weekly_loop k e b)) = state b
      \/ exists total comment,
           balance (state (fst (weekly_loop k e b))) = float_add (balance (state b)) total
           /\ history (state (fst (weekly_loop k e b)))
              = last_n 10 (history (state b) ++ [new_entry e total comment]))
  /\ (forall last,
        strptime_date (last_weekly_update (state b)) = Return last ->
        days_since (now e) last < 7 ->
        weekly_loop k e b = (b, Return tt)).
Proof.
  split; [apply weekly_loop_once|]. split.
  - destruct k as [|k]; [now left|]. rewrite weekly_loop_once.
    destruct (weekly_task_state e b) as [E|(total & cmt & [E|[d E]])];
      [now left| |]; right; exists total, cmt; rewrite E; split; reflexivity.
  - intros last Hp Hd. apply weekly_loop_stable.
    rewrite weekly_task_eq, Hp.
    replace (7 <=? days_since (now e) last) with false by (symmetry; now apply Z.leb_gt).
    reflexivity.
Qed.

(** C4, witness: four turns 17 days after the last accrual leave one
    transaction, and three more turns after it change nothing. *)
Lemma weekly_task_idempotent_witness :
  fst (weekly_loop 4 calm owed_17_days) = fst (weekly_task tt calm owed_17_days)
  /\ history (state (fst (weekly_loop 4 calm owed_17_days)))
     = [mktransaction "2024-11-21 12:00" ten "Auto-allowance (2 wks)"]
  /\ weekly_loop 3 calm (fst (weekly_task tt calm owed_17_days))
     = (fst (weekly_task tt calm owed_17_days), Return tt).
Proof.
  destruct (weekly_task_idempotent calm owed_17_days 3) as (H1 & _ & _).
  destruct (weekly_task_idempotent calm (fst (weekly_task tt calm owed_17_days)) 3)
    as (_ & _ & H3).
  split; [exact H1|]. split.
  - rewrite H1. vm_compute. reflexivity.
  - apply (H3 (mkdate 2024 11 18)).
    + vm_compute. reflexivity.
    + vm_compute. reflexivity.
Defined.

(** C5.  [/set abc] leaves the state and the file as they are, and its reply
    is the general error reply of [handle_command] with the message of
    [float]; it is not the invalid-amount reply [/add abc] gets, and it names
    no syntax: no command, not even a slash, is in it. *)
Lemma set_error_names_no_syntax :
  handle_command "/set abc" calm fresh
  = (fresh, Return (Some "⚠️ Error: could not convert string to float: 'abc'"))
  /\ handle_command "/add abc" calm fresh = (fresh, Return (Some invalid_amount_reply))
  /\ invalid_amount_reply = "⚠️ Invalid amount. Use: /add 5.00 chocolate"
  /\ ("⚠️ Error: could not convert string to float: 'abc'" =? invalid_amount_reply)%string = false
  /\ contains_char "/" "⚠️ Error: could not convert string to float: 'abc'" = false.
Proof. vm_compute. repeat split; reflexivity. Qed.




(** C7.  A command [/add], [/sub], [/withdraw] or [/set] (in any case) given
    alone, like a first word that is no command, gets no reply and changes
    neither the state nor the file. *)
Theorem missing_amount_is_silent (text : string) (e : env) (b : bot)
    (p0 : string) (rest : list string) :
  split text = p0 :: rest ->
  (rest = [] /\ str_in (lower p0) amount_commands = true)
  \/ str_in (lower p0) known_commands = false ->
  handle_command text e b = (b, Return None).
Proof.
  intros Hs [[-> Hc]|Hu].
  - now apply (handle_no_amount text e b p0).
  - now apply (handle_unknown text e b p0 rest).
Qed.

(** C7, witness: [/add], [/SET] between blanks, an unknown command, and
    [/sub] followed by a no-break space. *)
Lemma missing_amount_is_silent_witness :
  handle_command "/add" calm fresh = (fresh, Return None)
  /\ handle_command " /SET  " calm fresh = (fresh, Return None)
  /\ handle_command "/frobnicate 3" calm fresh = (fresh, Return None)
  /\ handle_command ("/sub" ++ nbsp) calm fresh = (fresh, Return None).
Proof.
  split; [|split; [|split]].
  - apply (missing_amount_is_silent "/add" calm fresh "/add" []);
      [vm_compute; reflexivity | left; split; vm_compute; reflexivity].
  - apply (missing_amount_is_silent " /SET  " calm fresh "/SET" []);
      [vm_compute; reflexivity | left; split; vm_compute; reflexivity].
  - apply (missing_amount_is_silent "/frobnicate 3" calm fresh "/frobnicate" ["3"]);
      [vm_compute; reflexivity | right; vm_compute; reflexivity].
  - apply (missing_amount_is_silent ("/sub" ++ nbsp) calm fresh "/sub" []);
      [vm_compute; reflexivity | left; split; vm_compute; reflexivity].
Defined.




(** C9, counterexample: [/add inf] is accepted, and in the world it leaves
    [/balance] replies with the word [inf], which has no decimals. *)
Lemma balance_reply_without_decimals :
  let b := fst (handle_command "/add inf" calm fresh) in
  reachable fresh b
  /\ handle_command "/balance" calm b = (b, Return (Some "💰 Balance: £inf"))
  /\ has_two_decimals "inf" = false.
Proof.
  cbv zeta. split; [apply reach_command, reach_start|]. split; vm_compute; reflexivity.
Qed.

(** C9.  [/balance] (in any case, whatever follows it) changes neither the
    state nor the file, so that asking again gives the same, and replies
    with the currency sign and the balance in the format [.2f].  For a
    finite balance that is: a minus sign when the sign bit is set, then the
    hundredths nearest to the absolute value (the even one when two are as
    near) written as digits, a point and exactly two digits.  A balance that
    is not finite is written as one of the words [nan], [inf] and [-inf],
    without decimals. *)
Theorem balance_command_reads_only (text : string) (e : env) (b : bot)
    (p0 : string) (rest : list string) :
  split text = p0 :: rest -> lower p0 = "/balance" ->
  let x := balance (state b) in
  handle_command text e b = (b, Return (Some ("💰 Balance: £" ++ format_2f x)))
  /\ (forall e', handle_command text e' (fst (handle_command text e b))
                 = handle_command text e' b)
  /\ match float_value x with
     | Some v =>
         has_two_decimals (format_2f x) = true
         /\ exists n,
              0 <= n
              /\ format_2f x
                 = (if is_negative x then "-" else EmptyString)
                   ++ str_of_int (n / 100) ++ "." ++ zero_pad 2 (str_of_int (n mod 100))
              /\ (Qabs (Qabs v * 100 - inject_Z n) <= 1 # 2)%Q
              /\ ((Qabs (Qabs v * 100 - inject_Z n) == 1 # 2)%Q -> Z.even n = true)
     | None =>
         has_two_decimals (format_2f x) = false
         /\ format_2f x
            = (if is_nan x then "nan" else if is_negative x then "-inf" else "inf")
     end.
Proof.
  intros Hs Hc x. pose proof (handle_balance text e b p0 rest Hs Hc) as H.
  split; [exact H|]. split; [intros e'; now rewrite H|].
  pose proof (format_2f_two_decimals x) as Hd.
  destruct x as [s|s| |s m ex]; cbn [float_value is_finite] in *.
  - split; [exact Hd|]. exists 0. split; [lia|]. split; [now destruct s|].
    split; [discriminate|intros H'; discriminate H'].
  - split; [exact Hd|reflexivity].
  - split; [exact Hd|reflexivity].
  - split; [exact Hd|]. exists (round_hundredths m ex).
    split; [apply round_hundredths_nonneg|]. split; [reflexivity|].
    apply round_hundredths_near.
Qed.

(** C9, witness: after [/add 0.125], [/Balance] shows 0.12, the even one of
    the two hundredths nearest to an eighth. *)
Lemma balance_command_reads_only_witness :
  let b := fst (handle_command "/add 0.125 sweets" calm fresh) in
  handle_command "/Balance now" calm b = (b, Return (Some "💰 Balance: £0.12")).
Proof.
  cbv zeta.
  destruct (balance_command_reads_only "/Balance now" calm
              (fst (handle_command "/add 0.125 sweets" calm fresh)) "/Balance" ["now"])
    as [H _]; [vm_compute; reflexivity | vm_compute; reflexivity |].
  exact H.
Defined.



(** ** Further properties: commands *)

Lemma handle_read_only_returns (text : string) (e : env) (b : bot)
    (p0 : string) (rest : list string) :
  split text = p0 :: rest ->
  (str_in (lower p0) transaction_commands && (1 <? Z.of_nat (List.length (p0 :: rest)))) = false ->
  ((lower p0 =? "/set")%string && (1 <? Z.of_nat (List.length (p0 :: rest)))) = false ->
  exists reply, snd (handle_command text e b) = Return reply.
Proof.
  intros Hs Ht Hset. unfold handle_command. rewrite Hs. cbv zeta.
  unfold transaction_commands in Ht. rewrite Ht, Hset.
  destruct (str_in (lower p0) ["/usage"; "/help"]); [eexists; reflexivity|].
  destruct (lower p0 =? "/balance")%string; [eexists; reflexivity|].
  destruct (lower p0 =? "/history")%string; [|eexists; reflexivity].
  unfold try_except, bind, get_state, ret.
  destruct (history (state b)); eexists; reflexivity.
Qed.

Lemma handle_command_returns (text : string) (e : env) (b : bot) :
  exists reply, snd (handle_command text e b) = Return reply.
Proof.
  destruct (split text) as [|p0 [|tok rest]] eqn:Hs.
  - unfold handle_command. rewrite Hs. eexists. reflexivity.
  - apply (handle_read_only_returns text e b p0 [] Hs);
      cbn [List.length]; apply andb_false_r.
  - destruct (str_in (lower p0) transaction_commands) eqn:Ht.
    + destruct (float_of_str tok) as [x|x] eqn:Hf.
      * rewrite (handle_transaction text e b p0 tok rest x Hs Ht Hf).
        destruct (failure_at 0 e); eexists; reflexivity.
      * rewrite (handle_transaction_invalid text e b p0 tok rest x Hs Ht Hf).
        eexists. reflexivity.
    + destruct (lower p0 =? "/set")%string eqn:Hset.
      * apply String.eqb_eq in Hset.
        destruct (float_of_str tok) as [w|x] eqn:Hf.
        -- rewrite (handle_set text e b p0 tok rest w Hs Hset Hf).
           destruct (failure_at 0 e); eexists; reflexivity.
        -- rewrite (handle_set_invalid text e b p0 tok rest x Hs Hset Hf).
           eexists. reflexivity.
      * apply (handle_read_only_returns text e b p0 (tok :: rest) Hs).
        -- now rewrite Ht.
        -- now rewrite Hset.
Qed.

Lemma handle_command_keeps_date (text : string) (e : env) (b : bot) :
  last_weekly_update (state (fst (handle_command text e b)))
  = last_weekly_update (state b).
Proof.
  rewrite handle_command_state. unfold state_after_command.
  destruct (split text) as [|p0 [|tok rest]]; try reflexivity.
  destruct (str_in (lower p0) transaction_commands).
  - destruct (float_of_str tok); reflexivity.
  - destruct (lower p0 =? "/set")%string; [|reflexivity].
    destruct (float_of_str tok); reflexivity.
Qed.

Lemma float_abs_neg (x : float) : float_abs (float_neg x) = float_abs x.
Proof. destruct x; reflexivity. Qed.

Lemma str_in_transaction_not_set (c : string) :
  str_in c transaction_commands = true -> (c =? "/set")%string = false.
Proof.
  intros H. destruct (str_in_cases3 _ _ _ _ H) as [->|[->| ->]]; reflexivity.
Qed.

Lemma last_n_app_last_n {A : Type} (n : nat) (l l' : list A) :
  last_n n (last_n n l ++ l') = last_n n (l ++ l').
Proof.
  unfold last_n. rewrite !length_app, length_skipn.
  destruct (Nat.le_gt_cases (List.length l) n) as [H|H].
  - replace (List.length l - n)%nat with 0%nat by lia. cbn [skipn].
    rewrite Nat.sub_0_r. reflexivity.
  - replace (List.length l - (List.length l - n) + List.length l' - n)%nat
      with (List.length l') by lia.
    replace (List.length l + List.length l' - n)%nat
      with (List.length l' + (List.length l - n))%nat by lia.
    rewrite <- skipn_skipn. rewrite (skipn_app (List.length l - n) l l').
    replace (List.length l - n - List.length l)%nat with 0%nat by lia.
    reflexivity.
Qed.


Lemma split_from_nonempty (s word t : string) :
  In t (split_from word s) -> t <> EmptyString.
Proof.
  revert word. induction s as [|c s IH]; intros word H; cbn [split_from] in H.
  - destruct word; [destruct H|]. destruct H as [<-|[]]. discriminate.
  - destruct (is_space c).
    + destruct word; [now apply (IH EmptyString)|].
      destruct H as [<-|H]; [discriminate|now apply (IH EmptyString)].
    + now apply (IH (word ++ String c EmptyString)).
Qed.

Lemma join_nonempty (sep x : string) (l : list string) :
  x <> EmptyString -> join sep (x :: l) <> EmptyString.
Proof.
  intros Hx. destruct x as [|c x]; [contradiction|].
  destruct l; cbn [join append]; discriminate.
Qed.

(** The comment [add_transaction] stores for the words [rest]. *)
Lemma comment_of_words (text p0 tok : string) (rest : list string) :
  split text = p0 :: tok :: rest ->
  match join " " rest with EmptyString => "Manual Entry" | _ => join " " rest end
  = match rest with [] => "Manual Entry" | _ => join " " rest end.
Proof.
  intros Hs. destruct rest as [|r rest]; [reflexivity|].
  assert (Hr : r <> EmptyString).
  { apply (split_from_nonempty (spaces text) EmptyString). fold (split text). rewrite Hs.
    right. right. now left. }
  pose proof (join_nonempty " " r rest Hr) as Hj.
  destruct (join " " (r :: rest)); [contradiction|reflexivity].
Qed.

(** X1.  [handle_command] never raises: whatever the text, the clock and
    the disk, it returns a reply or [None]. *)
Theorem handle_command_never_raises (text : string) (e : env) (b : bot) :
  exists reply, snd (handle_command text e b) = Return reply.
Proof. exact (handle_command_returns text e b). Qed.

(** X2.  A command is read by its words: two texts whose words are the
    same, the first up to the case of its letters, have the same reply and
    the same effect.  Blanks before, between and after the words, those
    outside ASCII included, and the case of the keyword do not matter. *)
Theorem command_is_read_by_words (t1 t2 p1 p2 : string) (rest : list string)
    (e : env) (b : bot) :
  split t1 = p1 :: rest -> split t2 = p2 :: rest -> lower p1 = lower p2 ->
  handle_command t1 e b = handle_command t2 e b.
Proof.
  intros H1 H2 Hl. unfold handle_command. rewrite H1, H2. cbv zeta.
  rewrite Hl. cbn [List.length nth]. unfold slice_from. cbn [skipn]. reflexivity.
Qed.

Lemma command_is_read_by_words_witness :
  handle_command (" /ADD" ++ nl ++ "5   new" ++ nbsp ++ "shoes ") calm fresh
  = handle_command "/add 5 new shoes" calm fresh.
Proof.
  apply (command_is_read_by_words _ _ "/ADD" "/add" ["5"; "new"; "shoes"]);
    reflexivity.
Defined.

(** X3.  No command changes the date of the last accrual; only
    [weekly_task] writes it. *)
Theorem commands_keep_last_weekly_update (text : string) (e : env) (b : bot) :
  last_weekly_update (state (fst (handle_command text e b)))
  = last_weekly_update (state b).
Proof. exact (handle_command_keeps_date text e b). Qed.

(** X4.  Every mutation is persisted at once: when the state file can be
    written, after [add_transaction] and after [/set] the file holds the
    state in memory. *)
Theorem mutations_are_persisted (e : env) (b : bot) :
  write_error e = None ->
  (forall a c,
     file (fst (add_transaction a c e b))
     = Document (state (fst (add_transaction a c e b))))
  /\ (forall text p0 tok rest w,
        split text = p0 :: tok :: rest -> lower p0 = "/set" ->
        float_of_str tok = Return w ->
        file (fst (handle_command text e b))
        = Document (state (fst (handle_command text e b)))).
Proof.
  intros Hw. split.
  - intros a c. rewrite add_transaction_eq, (failure_at_none _ _ Hw). reflexivity.
  - intros text p0 tok rest w Hs Hc Hf.
    rewrite (handle_set text e b p0 tok rest w Hs Hc Hf), (failure_at_none _ _ Hw). reflexivity.
Qed.

Lemma mutations_are_persisted_witness :
  file (fst (add_transaction ten "gift" calm fresh))
  = Document (state (fst (add_transaction ten "gift" calm fresh))).
Proof.
  destruct (mutations_are_persisted calm fresh eq_refl) as [H _].
  exact (H ten "gift").
Defined.

(** X5.  [/add], [/sub] and [/withdraw] with an amount that parses and a
    file that can be written: [/add] adds the amount to the balance, [/sub]
    and [/withdraw] add its negation; the entry appended holds that signed
    amount and, as its comment, the words after the amount joined by single
    spaces, whatever blanks were between them ("Manual Entry" when there is
    none).  The confirmation names the
    keyword's action and shows the absolute value of the amount: the sign
    the user typed is not looked at, so [/add -5] answers "Added £5.00"
    while the balance goes down by 5. *)
Theorem transaction_command_effect (text p0 tok : string) (rest : list string)
    (x : float) (e : env) (b : bot) :
  split text = p0 :: tok :: rest ->
  str_in (lower p0) transaction_commands = true ->
  float_of_str tok = Return x ->
  write_error e = None ->
  let subtract := negb (lower p0 =? "/add")%string in
  let amt := if subtract then float_neg x else x in
  let s' := mkledger (float_add (balance (state b)) amt) (weekly_amount (state b))
              (last_weekly_update (state b))
              (last_n 10
                 (history (state b)
                  ++ [mktransaction (strftime_minute (now e)) amt
                        (match rest with [] => "Manual Entry" | _ => join " " rest end)])%list) in
  handle_command text e b
  = (mkbot s' (Document s'),
     Return (Some ("✅ " ++ (if subtract then "Subtracted" else "Added") ++ " £"
                   ++ format_2f (float_abs x) ++ ". New Balance: £"
                   ++ format_2f (float_add (balance (state b)) amt)))).
Proof.
  intros Hs Hc Hf Hw subtract amt s'.
  rewrite (handle_transaction text e b p0 tok rest x Hs Hc Hf), (failure_at_none _ _ Hw).
  unfold after_transaction, new_entry. rewrite (comment_of_words text p0 tok rest Hs).
  cbn [balance]. subst s' amt subtract.
  destruct (str_in_cases3 _ _ _ _ Hc) as [E|[E|E]]; rewrite E;
    unfold signed_amount, action_word; eval_conds; cbn [negb];
    rewrite ?float_abs_neg; reflexivity.
Qed.

Lemma transaction_command_effect_witness :
  handle_command ("/add -5 refund  taken" ++ nbsp ++ "back") calm fresh
  = (let s' := mkledger minus_five one "2024-11-21"
                 [mktransaction "2024-11-21 12:00" minus_five "refund taken back"] in
     (mkbot s' (Document s'), Return (Some "✅ Added £5.00. New Balance: £-5.00"))).
Proof.
  exact (transaction_command_effect ("/add -5 refund  taken" ++ nbsp ++ "back") "/add" "-5"
           ["refund"; "taken"; "back"] minus_five calm fresh
           eq_refl eq_refl eq_refl eq_refl).
Defined.

(** X6.  When the save of a command fails, the command has still changed
    the state in memory: the reply is the error of the save, and the
    balance and the history (or the weekly amount) in memory are those of
    the command carried out.  The file is as it was when it could not be
    opened; when the failure came after it was opened it is cut short, and a
    bot restarted from it starts from the default state. *)
Theorem failed_write_keeps_the_change (text p0 tok : string) (rest : list string)
    (x : float) (e e' : env) (b : bot) (f : failure) :
  split text = p0 :: tok :: rest ->
  str_in (lower p0) amount_commands = true ->
  float_of_str tok = Return x ->
  write_error e = Some f -> failing_save f = 0%nat ->
  handle_command text e b
  = (mkbot (if (lower p0 =? "/set")%string then set_weekly_amount x (state b)
            else after_transaction e (signed_amount (lower p0) x) (join " " rest) (state b))
       (match f with
        | OpenFails _ _ => file b
        | WriteFails _ _ decode_msg => Malformed decode_msg
        end),
     Return (Some ("⚠️ Error: " ++ failure_message f)))
  /\ match f with
     | OpenFails _ _ => True
     | WriteFails _ _ decode_msg =>
         BudgetBot e' (file (fst (handle_command text e b)))
         = Return (Runs (mkbot (default_state (now e')) (Malformed decode_msg)))
     end.
Proof.
  intros Hs Hc Hf Hw Hk.
  assert (H0 : failure_at 0 e = Some f).
  { unfold failure_at. rewrite Hw, Hk. reflexivity. }
  assert (G : handle_command text e b
              = (mkbot (if (lower p0 =? "/set")%string then set_weekly_amount x (state b)
                        else after_transaction e (signed_amount (lower p0) x) (join " " rest)
                               (state b))
                   (cut_short f (file b)),
                 Return (Some ("⚠️ Error: " ++ failure_message f)))).
  { destruct (lower p0 =? "/set")%string eqn:Hset.
    - apply String.eqb_eq in Hset.
      rewrite (handle_set text e b p0 tok rest x Hs Hset Hf), H0. reflexivity.
    - assert (Ht : str_in (lower p0) transaction_commands = true).
      { unfold amount_commands, transaction_commands, str_in in *. cbn [existsb] in *.
        rewrite Hset in Hc. rewrite !orb_false_r in Hc. rewrite orb_false_r. exact Hc. }
      rewrite (handle_transaction text e b p0 tok rest x Hs Ht Hf), H0. reflexivity. }
  rewrite G. destruct f; cbn [cut_short fst file]; split; reflexivity.
Qed.

Lemma failed_write_keeps_the_change_witness :
  let b := mkbot (mkledger ten one "2024-11-21" []) (Document (mkledger ten one "2024-11-21" [])) in
  let e := mkenv noon (Some (WriteFails 0 "[Errno 28] No space left on device"
                               "Expecting value: line 1 column 1 (char 0)")) in
  handle_command "/add 5 gift" e b
  = (mkbot (after_transaction e five "gift" (state b))
       (Malformed "Expecting value: line 1 column 1 (char 0)"),
     Return (Some "⚠️ Error: [Errno 28] No space left on device"))
  /\ BudgetBot calm (file (fst (handle_command "/add 5 gift" e b)))
     = Return (Runs (mkbot (default_state noon)
                       (Malformed "Expecting value: line 1 column 1 (char 0)"))).
Proof.
  intros b e.
  exact (failed_write_keeps_the_change "/add 5 gift" "/add" "5" ["gift"] five e calm b
           (WriteFails 0 "[Errno 28] No space left on device"
              "Expecting value: line 1 column 1 (char 0)")
           eq_refl eq_refl eq_refl eq_refl eq_refl).
Defined.

(** X7.  [/usage], [/help], [/balance] and [/history] are queries: whatever
    follows the keyword, whatever the clock and the disk, they leave the
    state and the file as they are, they always answer, and the answer
    depends on the state only. *)
Theorem queries_change_nothing (text p0 : string) (rest : list string) (e e' : env) (b : bot) :
  split text = p0 :: rest ->
  str_in (lower p0) ["/usage"; "/help"; "/balance"; "/history"] = true ->
  fst (handle_command text e b) = b
  /\ (exists reply, snd (handle_command text e b) = Return (Some reply))
  /\ handle_command text e' b = handle_command text e b.
Proof.
  intros Hs Hc. unfold handle_command. rewrite Hs. cbv zeta.
  unfold str_in in Hc. cbn [existsb] in Hc. rewrite orb_false_r in Hc.
  repeat (apply orb_true_iff in Hc; destruct Hc as [Hc|Hc]);
    apply String.eqb_eq in Hc; rewrite Hc; eval_conds;
    unfold try_except, bind, get_state, ret;
    try (destruct (history (state b)));
    (split; [reflexivity|split; [eexists; reflexivity|reflexivity]]).
Qed.

Lemma queries_change_nothing_witness :
  fst (handle_command "/History please" calm full_bot) = full_bot
  /\ (exists reply, snd (handle_command "/History please" calm full_bot) = Return (Some reply))
  /\ handle_command "/History please" (mkenv noon (Some (OpenFails 0 "[Errno 13] Permission denied: 'budget_state.json'"))) full_bot
     = handle_command "/History please" calm full_bot.
Proof.
  exact (queries_change_nothing "/History please" "/History" ["please"] calm
           (mkenv noon (Some (OpenFails 0 "[Errno 13] Permission denied: 'budget_state.json'"))) full_bot eq_refl eq_refl).
Defined.

Lemma apply_all_history (calls : list call) (b : bot) :
  (List.length (history (state b)) <= 10)%nat ->
  history (state (apply_all calls b)) = last_n 10 (history (state b) ++ entries_of calls).
Proof.
  unfold apply_all, entries_of. revert b.
  induction calls as [|c calls IH]; intros b Hb.
  - cbn [fold_left map]. rewrite app_nil_r. symmetry. now apply last_n_short.
  - cbn [fold_left map]. rewrite IH.
    + rewrite add_transaction_state. unfold after_transaction. cbn [history].
      rewrite last_n_app_last_n, <- app_assoc. reflexivity.
    + rewrite add_transaction_state. unfold after_transaction. cbn [history].
      apply last_n_length.
Qed.

(** X8.  The history is the ten most recent transactions: after any
    sequence of calls of [add_transaction] on a history of at most ten
    entries, it holds the last ten of the old entries followed by the new
    ones, in the order of the calls; none is reordered or altered, the
    oldest are dropped. *)
Theorem history_is_last_ten (calls : list call) (b : bot) :
  (List.length (history (state b)) <= 10)%nat ->
  history (state (apply_all calls b)) = last_n 10 (history (state b) ++ entries_of calls).
Proof. exact (apply_all_history calls b). Qed.

Lemma history_is_last_ten_witness :
  history (state (apply_all big_then_small full_bot))
  = last_n 10 (history (state full_bot) ++ entries_of big_then_small).
Proof.
  apply (history_is_last_ten big_then_small full_bot). cbn. lia.
Defined.

(** ** Further properties: the file and the weekly task *)

Lemma handle_command_in_sync (text : string) (e : env) (b : bot) :
  write_error e = None -> in_sync b -> in_sync (fst (handle_command text e b)).
Proof.
  unfold in_sync. intros Hw Hb.
  destruct (split text) as [|p0 [|tok rest]] eqn:Hs.
  - unfold handle_command. rewrite Hs. exact Hb.
  - rewrite (handle_read_only text e b p0 [] Hs); [exact Hb| |];
      cbn [List.length]; apply andb_false_r.
  - destruct (str_in (lower p0) transaction_commands) eqn:Ht.
    + destruct (float_of_str tok) as [x|x] eqn:Hf.
      * rewrite (handle_transaction text e b p0 tok rest x Hs Ht Hf), (failure_at_none _ _ Hw). reflexivity.
      * rewrite (handle_transaction_invalid text e b p0 tok rest x Hs Ht Hf). exact Hb.
    + destruct (lower p0 =? "/set")%string eqn:Hset.
      * apply String.eqb_eq in Hset.
        destruct (float_of_str tok) as [w|x] eqn:Hf.
        -- rewrite (handle_set text e b p0 tok rest w Hs Hset Hf), (failure_at_none _ _ Hw). reflexivity.
        -- rewrite (handle_set_invalid text e b p0 tok rest x Hs Hset Hf). exact Hb.
      * rewrite (handle_read_only text e b p0 (tok :: rest) Hs); [exact Hb| |].
        -- now rewrite Ht.
        -- now rewrite Hset.
Qed.

Lemma weekly_task_in_sync (e : env) (b : bot) :
  write_error e = None -> in_sync b -> in_sync (fst (weekly_task tt e b)).
Proof.
  unfold in_sync. intros Hw Hb. rewrite weekly_task_eq.
  destruct (strptime_date (last_weekly_update (state b))) as [last|x]; [|exact Hb].
  destruct (7 <=? days_since (now e) last); [|exact Hb].
  cbv zeta. rewrite !(failure_at_none _ _ Hw).
  destruct (add_weeks last (accrual_weeks e last)); reflexivity.
Qed.

Lemma BudgetBot_in_sync (e : env) (b : bot) :
  in_sync b -> BudgetBot e (file b) = Return (Runs b).
Proof.
  unfold in_sync, BudgetBot, load_state. intros Hb. rewrite Hb. cbn [read_document].
  destruct b as [s f]. cbn [file state] in *. now subst f.
Qed.

(** X9.  A restart resumes where the bot stopped.  While the state file can
    be written, "the file holds the state in memory" is kept by every
    command and by every turn of [weekly_task], and a bot constructed from
    the file they leave is the bot they leave: [load_state] reads back what
    [save_state] wrote, whatever the clock at the restart. *)
Theorem restart_resumes (text : string) (e e' : env) (b : bot) :
  write_error e = None -> in_sync b ->
  in_sync (fst (handle_command text e b))
  /\ in_sync (fst (weekly_task tt e b))
  /\ BudgetBot e' (file (fst (handle_command text e b)))
     = Return (Runs (fst (handle_command text e b)))
  /\ BudgetBot e' (file (fst (weekly_task tt e b))) = Return (Runs (fst (weekly_task tt e b))).
Proof.
  intros Hw Hb.
  pose proof (handle_command_in_sync text e b Hw Hb) as Hc.
  pose proof (weekly_task_in_sync e b Hw Hb) as Ht.
  split; [exact Hc|]. split; [exact Ht|].
  split; now apply BudgetBot_in_sync.
Qed.

Lemma restart_resumes_witness :
  let b := fst (handle_command "/set 5" calm fresh) in
  in_sync (fst (handle_command "/sub 5 coffee" calm b))
  /\ in_sync (fst (weekly_task tt calm b))
  /\ BudgetBot (mkenv (mkdatetime (mkdate 2025 1 1) 0 0) None)
       (file (fst (handle_command "/sub 5 coffee" calm b)))
     = Return (Runs (fst (handle_command "/sub 5 coffee" calm b)))
  /\ BudgetBot (mkenv (mkdatetime (mkdate 2025 1 1) 0 0) None) (file (fst (weekly_task tt calm b)))
     = Return (Runs (fst (weekly_task tt calm b))).
Proof.
  exact (restart_resumes "/sub 5 coffee" calm (mkenv (mkdatetime (mkdate 2025 1 1) 0 0) None)
           (fst (handle_command "/set 5" calm fresh)) eq_refl eq_refl).
Defined.

(** The date a turn of [weekly_task] leaves, from the date it read. *)
Lemma weekly_task_date (e : env) (b : bot) (d0 : cdate) :
  strptime_date (last_weekly_update (state b)) = Return d0 ->
  exists d k,
    strptime_date (last_weekly_update (state (fst (weekly_task tt e b)))) = Return d
    /\ 0 <= k /\ toordinal d = toordinal d0 + 7 * k.
Proof.
  intros Hp. rewrite weekly_task_eq, Hp.
  assert (Hsame : exists d k, strptime_date (last_weekly_update (state b)) = Return d
                              /\ 0 <= k /\ toordinal d = toordinal d0 + 7 * k).
  { exists d0, 0. repeat split; [exact Hp|lia|lia]. }
  destruct (7 <=? days_since (now e) d0) eqn:Hd; [|exact Hsame].
  cbv zeta. destruct (failure_at 0 e); [exact Hsame|].
  destruct (add_weeks d0 (accrual_weeks e d0)) as [d|x] eqn:Ha; [|exact Hsame].
  destruct (add_weeks_returns _ _ _ Ha) as (_ & Ho & Hrt).
  assert (Hk : 0 <= accrual_weeks e d0).
  { apply Z.leb_le in Hd. unfold accrual_weeks. apply Z.div_pos; lia. }
  exists d, (accrual_weeks e d0).
  destruct (failure_at 1 e); cbn [fst state last_weekly_update set_last_weekly_update];
    repeat split; assumption.
Qed.

Lemma reachable_date (b0 b : bot) (d0 : cdate) :
  reachable b0 b ->
  strptime_date (last_weekly_update (state b0)) = Return d0 ->
  exists d k,
    strptime_date (last_weekly_update (state b)) = Return d
    /\ 0 <= k /\ toordinal d = toordinal d0 + 7 * k.
Proof.
  intros Hr Hp. induction Hr as [|text e b Hr IH|e b Hr IH].
  - exists d0, 0. repeat split; [exact Hp|lia|lia].
  - rewrite handle_command_keeps_date. exact IH.
  - destruct IH as (d1 & k1 & Hp1 & Hk1 & Ho1).
    destruct (weekly_task_date e b d1 Hp1) as (d & k & Hp2 & Hk & Ho).
    exists d, (k1 + k). repeat split; [exact Hp2|lia|lia].
Qed.

(** X10.  The date of the last accrual stays a date and only moves forward
    by whole weeks: in every world the two loops reach from a start whose
    stored date parses, whatever the commands, the clocks (even running
    backwards) and the failures of the disk, the stored date parses and lies
    a whole number of weeks, zero or more, after the date of the start; so
    no turn of [weekly_task] ever ends with [ValueError]. *)
Theorem accrual_date_moves_by_weeks (b0 b : bot) (d0 : cdate) :
  reachable b0 b ->
  strptime_date (last_weekly_update (state b0)) = Return d0 ->
  (exists d k,
     strptime_date (last_weekly_update (state b)) = Return d
     /\ 0 <= k /\ toordinal d = toordinal d0 + 7 * k)
  /\ (forall e x, snd (weekly_task tt e b) = Raise x -> is_ValueError x = false).
Proof.
  intros Hr Hp. destruct (reachable_date b0 b d0 Hr Hp) as (d & k & Hd & Hk & Ho).
  split; [now exists d, k|].
  intros e x. rewrite weekly_task_eq, Hd.
  destruct (7 <=? days_since (now e) d); [|discriminate].
  cbv zeta. destruct (failure_at 0 e).
  - intros H. inversion H. reflexivity.
  - unfold add_weeks, fromordinal.
    destruct ((1 <=? toordinal d + 7 * accrual_weeks e d)
              && (toordinal d + 7 * accrual_weeks e d <=? MAXORDINAL)).
    + destruct (failure_at 1 e); [|discriminate]. intros H. inversion H. reflexivity.
    + intros H. inversion H. reflexivity.
Qed.

Lemma accrual_date_moves_by_weeks_witness :
  (exists d k,
     strptime_date (last_weekly_update (state (fst (weekly_task tt calm owed_17_days))))
     = Return d
     /\ 0 <= k /\ toordinal d = toordinal (mkdate 2024 11 4) + 7 * k)
  /\ (forall e x, snd (weekly_task tt e (fst (weekly_task tt calm owed_17_days))) = Raise x ->
      is_ValueError x = false).
Proof.
  exact (accrual_date_moves_by_weeks owed_17_days (fst (weekly_task tt calm owed_17_days))
           (mkdate 2024 11 4)
           (reach_weekly owed_17_days calm owed_17_days (reach_start owed_17_days))
           eq_refl).
Defined.

Lemma steady_from_le (envs : list env) (m n : Z) :
  m <= n -> steady_from n envs -> steady_from m envs.
Proof.
  intros Hmn. destruct envs as [|e rest]; [trivial|].
  cbn [steady_from]. intros (Hv & Hw & Hn & Hs). repeat split; try assumption. lia.
Qed.

(** A turn at a clock not before the stored date, on a disk that takes the
    write: it returns, and the date it leaves is the stored date moved by
    the whole weeks that passed. *)
Lemma weekly_task_catches_up (e : env) (b : bot) (d0 : cdate) :
  strptime_date (last_weekly_update (state b)) = Return d0 ->
  valid_date (today (now e)) = true -> write_error e = None ->
  toordinal d0 <= clock_day e ->
  exists b' d,
    weekly_task tt e b = (b', Return tt)
    /\ strptime_date (last_weekly_update (state b')) = Return d
    /\ toordinal d = toordinal d0 + 7 * ((clock_day e - toordinal d0) / 7).
Proof.
  intros Hp Hv Hw Hle. rewrite weekly_task_eq, Hp. unfold clock_day in *.
  destruct (7 <=? days_since (now e) d0) eqn:Hd.
  - apply Z.leb_le in Hd. cbv zeta. rewrite !(failure_at_none _ _ Hw).
    pose proof (add_weeks_in_range e d0 Hv (strptime_valid _ _ Hp) Hd) as Ha.
    rewrite Ha. destruct (add_weeks_returns _ _ _ Ha) as (_ & Ho & Hrt).
    eexists. eexists. split; [reflexivity|].
    cbn [state last_weekly_update set_last_weekly_update]. split; [exact Hrt|].
    rewrite Ho. reflexivity.
  - apply Z.leb_gt in Hd. exists b, d0. split; [reflexivity|]. split; [exact Hp|].
    unfold days_since in Hd.
    replace ((toordinal (today (now e)) - toordinal d0) / 7) with 0; [lia|].
    symmetry. apply Z.div_small. lia.
Qed.

Lemma weekly_turns_catch_up (envs : list env) (b : bot) (d0 : cdate) (n0 : Z) :
  strptime_date (last_weekly_update (state b)) = Return d0 ->
  toordinal d0 <= n0 < toordinal d0 + 7 ->
  steady_from n0 envs ->
  exists b' d,
    weekly_turns envs b = (b', Return tt)
    /\ strptime_date (last_weekly_update (state b')) = Return d
    /\ toordinal d = toordinal d0 + 7 * ((last_day n0 envs - toordinal d0) / 7).
Proof.
  revert b d0 n0. induction envs as [|e rest IH]; intros b d0 n0 Hp Hn Hs.
  - exists b, d0. split; [reflexivity|]. split; [exact Hp|].
    unfold last_day. cbn [fold_left].
    replace ((n0 - toordinal d0) / 7) with 0; [lia|]. symmetry. apply Z.div_small. lia.
  - cbn [steady_from] in Hs. destruct Hs as (Hv & Hw & Hle & Hs).
    destruct (weekly_task_catches_up e b d0 Hp Hv Hw) as (b1 & d1 & Ht & Hp1 & Ho1); [lia|].
    destruct (IH b1 d1 (clock_day e) Hp1) as (b' & d & Hr & Hp' & Ho); [|exact Hs|].
    + rewrite Ho1. set (n := clock_day e) in *. set (l := toordinal d0) in *.
      Z.to_euclidean_division_equations. lia.
    + exists b', d. cbn [weekly_turns]. rewrite Ht. split; [exact Hr|]. split; [exact Hp'|].
      rewrite Ho, Ho1. unfold last_day. cbn [fold_left].
      fold (last_day (clock_day e) rest).
      set (n := last_day (clock_day e) rest). set (m := clock_day e) in *.
      set (l := toordinal d0) in *.
      Z.to_euclidean_division_equations. lia.
Qed.

(** X11.  The accrual catches up whatever the schedule of the checks.  From
    a stored date that parses, let [weekly_task] run at any clocks that do
    not run backwards and start no earlier than that date, on a disk that
    takes the writes: every turn returns, and the stored date ends as the
    first date moved by the whole weeks between it and the last clock.  One
    check after a long pause leaves the same date as hourly checks. *)
Theorem accrual_catches_up (envs : list env) (b : bot) (d0 : cdate) :
  strptime_date (last_weekly_update (state b)) = Return d0 ->
  steady_from (toordinal d0) envs ->
  exists b' d,
    weekly_turns envs b = (b', Return tt)
    /\ strptime_date (last_weekly_update (state b')) = Return d
    /\ toordinal d
       = toordinal d0 + 7 * ((last_day (toordinal d0) envs - toordinal d0) / 7).
Proof.
  intros Hp Hs. apply (weekly_turns_catch_up envs b d0 (toordinal d0) Hp); [lia|exact Hs].
Qed.

Lemma accrual_catches_up_witness :
  exists b' d,
    weekly_turns
      [mkenv (mkdatetime (mkdate 2024 11 12) 9 0) None; calm;
       mkenv (mkdatetime (mkdate 2024 12 1) 0 30) None]
      owed_17_days
    = (b', Return tt)
    /\ strptime_date (last_weekly_update (state b')) = Return d
    /\ toordinal d
       = toordinal (mkdate 2024 11 4)
         + 7 * ((last_day (toordinal (mkdate 2024 11 4))
                   [mkenv (mkdatetime (mkdate 2024 11 12) 9 0) None; calm;
                    mkenv (mkdatetime (mkdate 2024 12 1) 0 30) None]
                 - toordinal (mkdate 2024 11 4)) / 7).
Proof.
  apply (accrual_catches_up
           [mkenv (mkdatetime (mkdate 2024 11 12) 9 0) None; calm;
            mkenv (mkdatetime (mkdate 2024 12 1) 0 30) None]
           owed_17_days (mkdate 2024 11 4)).
  - reflexivity.
  - cbn [steady_from]. repeat split; try reflexivity; vm_compute; discriminate.
Defined.

(** ** Further properties: the poll loop *)

Lemma trace_app_silent_l (t : trace) : trace_app silent t = t.
Proof. destruct t. reflexivity. Qed.

Lemma trace_app_silent_r (t : trace) : trace_app t silent = t.
Proof. destruct t as [p l]. unfold trace_app, silent. cbn. now rewrite !app_nil_r. Qed.

Lemma trace_app_assoc (t u v : trace) :
  trace_app t (trace_app u v) = trace_app (trace_app t u) v.
Proof. unfold trace_app. cbn. now rewrite !app_assoc. Qed.

(** One step of [for_msg_in] on a message that holds a command. *)
Lemma for_msg_in_command (cfg : config) (w : surroundings) (i : nat) (msg : json)
    (rest : list json) (b : bot) (text : string) :
  command_of msg = Ok (Some text) ->
  exists reply,
    snd (handle_command text (handled_at w i) b) = Return reply
    /\ for_msg_in cfg w i (msg :: rest) b
       = (let '(b'', t, r) :=
            for_msg_in cfg w (S i) rest (fst (handle_command text (handled_at w i) b)) in
          (b'',
           trace_app (match to_post reply with
                      | Some s => send_signal_message cfg (send_answer w i) s
                      | None => silent
                      end) t,
           r)).
Proof.
  intros Hc. destruct (handle_command_returns text (handled_at w i) b) as [reply Hh].
  exists reply. split; [exact Hh|].
  cbn [for_msg_in]. rewrite Hc.
  destruct (handle_command text (handled_at w i) b) as [b1 o]. cbn [fst snd] in *. subst o.
  destruct (for_msg_in cfg w (S i) rest b1) as [[b'' t] r].
  destruct reply as [[|c s]|]; cbn [to_post]; rewrite ?trace_app_silent_l; reflexivity.
Qed.

Lemma for_msg_in_reachable (cfg : config) (w : surroundings) (b0 : bot)
    (msgs : list json) (i : nat) (b : bot) :
  reachable b0 b -> reachable b0 (fst (fst (for_msg_in cfg w i msgs b))).
Proof.
  revert i b. induction msgs as [|msg rest IH]; intros i b Hr; [exact Hr|].
  destruct (command_of msg) as [[text|]|m] eqn:Hc.
  - destruct (for_msg_in_command cfg w i msg rest b text Hc) as (reply & _ & ->).
    pose proof (IH (S i) _ (reach_command b0 text (handled_at w i) b Hr)) as H.
    destruct (for_msg_in cfg w (S i) rest (fst (handle_command text (handled_at w i) b)))
      as [[b'' t] r].
    exact H.
  - cbn [for_msg_in]. rewrite Hc. now apply IH.
  - cbn [for_msg_in]. rewrite Hc. exact Hr.
Qed.

Lemma for_msg_in_runs (cfg : config) (w : surroundings) (msgs : list json)
    (i : nat) (b : bot) :
  exists cmds, fst (fst (for_msg_in cfg w i msgs b)) = run_commands w i cmds b.
Proof.
  revert i b. induction msgs as [|msg rest IH]; intros i b; [now exists []|].
  destruct (command_of msg) as [[text|]|m] eqn:Hc.
  - destruct (for_msg_in_command cfg w i msg rest b text Hc) as (reply & _ & ->).
    destruct (IH (S i) (fst (handle_command text (handled_at w i) b))) as [cmds H].
    exists (Some text :: cmds). cbn [run_commands]. rewrite <- H.
    destruct (for_msg_in cfg w (S i) rest (fst (handle_command text (handled_at w i) b)))
      as [[b'' t] r].
    reflexivity.
  - destruct (IH (S i) b) as [cmds H]. exists (None :: cmds).
    cbn [for_msg_in run_commands]. now rewrite Hc.
  - exists []. cbn [for_msg_in]. now rewrite Hc.
Qed.

(** X12.  A turn of the poll loop is a sequence of commands: whatever was
    received and whatever the answers of the service, the bot the turn
    leaves is the bot it found after calls of [handle_command] alone, one
    after the other, each at the clock and the disk of its place in the
    batch.  So a turn keeps the bot within the worlds the two loops
    reach. *)
Theorem poll_turn_runs_commands (cfg : config) (w : surroundings) (b0 b : bot) :
  (exists cmds, fst (poll_turn cfg w b) = run_commands w 0 cmds b)
  /\ (reachable b0 b -> reachable b0 (fst (poll_turn cfg w b))).
Proof.
  split.
  - unfold poll_turn.
    destruct (received w (receive_url cfg)) as [status raw_text|m]; [|now exists []].
    destruct (status =? 200); [|now exists []].
    destruct (has_messages raw_text); [|now exists []].
    destruct (loaded w) as [messages|m]; [|now exists []].
    destruct (iterate messages) as [msgs|m]; [|now exists []].
    destruct (for_msg_in_runs cfg w msgs 0 b) as [cmds H]. exists cmds.
    destruct (for_msg_in cfg w 0 msgs b) as [[b' t] r]. destruct r; exact H.
  - intros Hr. unfold poll_turn.
    destruct (received w (receive_url cfg)) as [status raw_text|m]; [|exact Hr].
    destruct (status =? 200); [|exact Hr].
    destruct (has_messages raw_text); [|exact Hr].
    destruct (loaded w) as [messages|m]; [|exact Hr].
    destruct (iterate messages) as [msgs|m]; [|exact Hr].
    pose proof (for_msg_in_reachable cfg w b0 msgs 0 b Hr) as H.
    destruct (for_msg_in cfg w 0 msgs b) as [[b' t] r]. destruct r; exact H.
Qed.

Lemma poll_turn_runs_commands_witness :
  let cfg := mkconfig (Some "+440000") (Some "group.abc") in
  let w := mksurroundings (fun _ => Responds 200 "[...]")
             (Ok (JList [data_message "/add 5 gift"; sync_message "/balance"]))
             (fun _ => calm) (fun _ => Fails "timeout") in
  (exists cmds, fst (poll_turn cfg w fresh) = run_commands w 0 cmds fresh)
  /\ reachable fresh (fst (poll_turn cfg w fresh)).
Proof.
  intros cfg w. destruct (poll_turn_runs_commands cfg w fresh fresh) as [H1 H2].
  split; [exact H1|]. apply H2. apply reach_start.
Defined.

Lemma for_msg_in_bot (cfg cfg' : config) (w w' : surroundings) (msgs : list json)
    (i : nat) (b : bot) :
  (forall j, handled_at w j = handled_at w' j) ->
  fst (fst (for_msg_in cfg w i msgs b)) = fst (fst (for_msg_in cfg' w' i msgs b))
  /\ snd (for_msg_in cfg w i msgs b) = snd (for_msg_in cfg' w' i msgs b).
Proof.
  intros Hat. revert i b. induction msgs as [|msg rest IH]; intros i b; [now split|].
  destruct (command_of msg) as [[text|]|m] eqn:Hc.
  - destruct (for_msg_in_command cfg w i msg rest b text Hc) as (reply & _ & ->).
    destruct (for_msg_in_command cfg' w' i msg rest b text Hc) as (reply' & _ & ->).
    rewrite <- Hat.
    pose proof (IH (S i) (fst (handle_command text (handled_at w i) b))) as H.
    destruct (for_msg_in cfg w (S i) rest (fst (handle_command text (handled_at w i) b)))
      as [[b1 t1] r1].
    destruct (for_msg_in cfg' w' (S i) rest (fst (handle_command text (handled_at w i) b)))
      as [[b2 t2] r2].
    exact H.
  - cbn [for_msg_in]. rewrite Hc. apply IH.
  - cbn [for_msg_in]. rewrite Hc. now split.
Qed.

(** X13.  Sending is best effort: the bot a turn of the poll loop leaves
    does not depend on the answers to its POSTs nor on the group it sends
    to.  A reply that could not be sent does not undo its command and does
    not keep the following messages from being handled.  The number of the
    bot is another matter: it is part of the address of the GET, and with
    it what is received. *)
Theorem sending_never_changes_the_bot (cfg : config) (group : option string)
    (w : surroundings) (answers : nat -> response) (b : bot) :
  fst (poll_turn cfg w b)
  = fst (poll_turn (mkconfig (REGISTERED_NUMBER cfg) group)
           (mksurroundings (received w) (loaded w) (handled_at w) answers) b)
  /\ (let service :=
        mksurroundings
          (fun url =>
             if (url =? "http://localhost:8080/v1/receive/+440000")%string
             then Responds 200 "[...]" else Responds 400 "{}")
          (Ok (JList [data_message "/add 5 gift"]))
          (fun _ => calm) (fun _ => Fails "Cannot connect to host localhost:8080") in
      balance (state (fst (poll_turn (mkconfig (Some "+440000") None) service fresh))) = five
      /\ fst (poll_turn (mkconfig None None) service fresh) = fresh).
Proof.
  split; [|split; reflexivity].
  unfold poll_turn.
  change (receive_url (mkconfig (REGISTERED_NUMBER cfg) group)) with (receive_url cfg).
  cbn [received loaded].
  destruct (received w (receive_url cfg)) as [status raw_text|m]; [|reflexivity].
  destruct (status =? 200); [|reflexivity].
  destruct (has_messages raw_text); [|reflexivity].
  destruct (loaded w) as [messages|m]; [|reflexivity].
  destruct (iterate messages) as [msgs|m]; [|reflexivity].
  destruct (for_msg_in_bot cfg (mkconfig (REGISTERED_NUMBER cfg) group) w
              (mksurroundings (received w) (Ok messages) (handled_at w) answers) msgs 0 b
              (fun j => eq_refl)) as [H1 H2].
  destruct (for_msg_in cfg w 0 msgs b) as [[b1 t1] r1].
  destruct (for_msg_in _ _ 0 msgs b) as [[b2 t2] r2].
  cbn [fst snd] in *. subst b2 r2. destruct r1; reflexivity.
Qed.

Lemma for_msg_in_app (cfg : config) (w : surroundings) (l1 l2 : list json)
    (i : nat) (b : bot) :
  for_msg_in cfg w i (l1 ++ l2) b
  = (let '(b1, t1, r1) := for_msg_in cfg w i l1 b in
     match r1 with
     | Err m => (b1, t1, Err m)
     | Ok _ =>
         let '(b2, t2, r2) := for_msg_in cfg w (i + List.length l1) l2 b1 in
         (b2, trace_app t1 t2, r2)
     end).
Proof.
  revert i b. induction l1 as [|msg rest IH]; intros i b.
  - cbn [app for_msg_in List.length]. rewrite Nat.add_0_r.
    destruct (for_msg_in cfg w i l2 b) as [[b2 t2] r2]. now rewrite trace_app_silent_l.
  - cbn [app]. destruct (command_of msg) as [[text|]|m] eqn:Hc.
    + destruct (for_msg_in_command cfg w i msg (rest ++ l2) b text Hc) as (reply & Hr & ->).
      destruct (for_msg_in_command cfg w i msg rest b text Hc) as (reply' & Hr' & ->).
      rewrite Hr in Hr'. inversion Hr'. subst reply'. rewrite IH.
      cbn [List.length]. rewrite Nat.add_succ_r.
      change (S i + List.length rest)%nat with (S (i + List.length rest)).
      destruct (for_msg_in cfg w (S i) rest (fst (handle_command text (handled_at w i) b)))
        as [[b1 t1] r1].
      destruct r1 as [u|m]; [|reflexivity].
      destruct (for_msg_in cfg w (S (i + List.length rest)) l2 b1) as [[b2 t2] r2].
      now rewrite trace_app_assoc.
    + cbn [for_msg_in List.length]. rewrite Hc, IH, Nat.add_succ_r. reflexivity.
    + cbn [for_msg_in]. rewrite Hc. reflexivity.
Qed.

(** A batch of messages that are all well formed is gone through to its
    end. *)
Lemma for_msg_in_well_formed (cfg : config) (w : surroundings) (msgs : list json)
    (cmds : list (option string)) (i : nat) (b : bot) :
  Forall2 (fun msg c => command_of msg = Ok c) msgs cmds ->
  exists t,
    for_msg_in cfg w i msgs b = (run_commands w i cmds b, t, Ok tt)
    /\ posted t
       = map (fun s => mkpayload s (REGISTERED_NUMBER cfg) [GROUP_ID cfg]) (replies w i cmds b)
    /\ ((forall j, exists body, send_answer w j = Responds 200 body
                                \/ send_answer w j = Responds 201 body) ->
        logged t = []).
Proof.
  intros H. revert i b. induction H as [|msg c msgs cmds Hc H IH]; intros i b.
  - exists silent. repeat split.
  - destruct c as [text|].
    + destruct (for_msg_in_command cfg w i msg msgs b text Hc) as (reply & Hr & ->).
      cbn [run_commands replies].
      destruct (handle_command text (handled_at w i) b) as [b1 o]. cbn [fst snd] in *.
      subst o. destruct (IH (S i) b1) as (t & -> & Hp & Hl).
      eexists. split; [reflexivity|].
      destruct reply as [[|ch s]|]; cbn [to_post];
        rewrite ?trace_app_silent_l; try (split; assumption).
      unfold trace_app, send_signal_message. split.
      * destruct (send_answer w i) as [st body|m]; [destruct ((st =? 200) || (st =? 201))|];
          cbn [posted app map]; now rewrite Hp.
      * intros Hok. destruct (Hok i) as [body [-> | ->]]; cbn [orb Z.eqb Pos.eqb logged app];
          now apply Hl.
    + cbn [for_msg_in run_commands replies]. rewrite Hc. apply IH.
Qed.

(** X14.  A batch of well-formed messages is handled whole and in order:
    the bot the turn leaves is the one the commands of the batch lead to,
    run one after the other, messages without a command skipped; one
    payload is posted for each reply that is not empty, in the order of the
    commands, from [REGISTERED_NUMBER] to [GROUP_ID] alone; and when every
    POST is answered 200 or 201, no error is logged. *)
Theorem batch_is_handled_in_order (cfg : config) (w : surroundings) (b : bot)
    (raw_text : string) (msgs : list json) (cmds : list (option string)) :
  received w (receive_url cfg) = Responds 200 raw_text -> has_messages raw_text = true ->
  loaded w = Ok (JList msgs) ->
  Forall2 (fun msg c => command_of msg = Ok c) msgs cmds ->
  fst (poll_turn cfg w b) = run_commands w 0 cmds b
  /\ posted (snd (poll_turn cfg w b))
     = map (fun s => mkpayload s (REGISTERED_NUMBER cfg) [GROUP_ID cfg]) (replies w 0 cmds b)
  /\ ((forall j, exists body, send_answer w j = Responds 200 body
                              \/ send_answer w j = Responds 201 body) ->
      logged (snd (poll_turn cfg w b)) = []).
Proof.
  intros Hr Hm Hl H. unfold poll_turn. rewrite Hr, Hl, Hm. cbn [Z.eqb Pos.eqb iterate].
  destruct (for_msg_in_well_formed cfg w msgs cmds 0 b H) as (t & -> & Hp & Hlog).
  cbn [fst snd]. repeat split; assumption.
Qed.

Lemma batch_is_handled_in_order_witness :
  let cfg := mkconfig (Some "+440000") (Some "group.abc") in
  let w := mksurroundings (fun _ => Responds 200 "[...]")
             (Ok (JList [data_message "/add 5 gift"; data_message "see you at 8";
                         sync_message "/balance"]))
             (fun _ => calm) (fun _ => Responds 201 "{}") in
  let cmds := [Some "/add 5 gift"; None; Some "/balance"] in
  fst (poll_turn cfg w fresh) = run_commands w 0 cmds fresh
  /\ posted (snd (poll_turn cfg w fresh))
     = map (fun s => mkpayload s (REGISTERED_NUMBER cfg) [GROUP_ID cfg])
         (replies w 0 cmds fresh)
  /\ ((forall j, exists body, send_answer w j = Responds 200 body
                              \/ send_answer w j = Responds 201 body) ->
      logged (snd (poll_turn cfg w fresh)) = []).
Proof.
  intros cfg w cmds.
  apply (batch_is_handled_in_order cfg w fresh "[...]"
           [data_message "/add 5 gift"; data_message "see you at 8"; sync_message "/balance"]
           cmds); try reflexivity.
  repeat constructor.
Defined.

Lemma for_msg_in_with_loaded (cfg : config) (w : surroundings) (v : attempt json)
    (msgs : list json) (i : nat) (b : bot) :
  for_msg_in cfg (with_loaded w v) i msgs b = for_msg_in cfg w i msgs b.
Proof.
  revert i b. induction msgs as [|msg rest IH]; intros i b; [reflexivity|].
  cbn [for_msg_in]. destruct (command_of msg) as [[text|]|m]; [|apply IH|reflexivity].
  change (handled_at (with_loaded w v) i) with (handled_at w i).
  change (send_answer (with_loaded w v) i) with (send_answer w i).
  destruct (handle_command text (handled_at w i) b) as [b1 [[[|c s]|]|x]];
    rewrite ?IH; reflexivity.
Qed.

(** X15.  A message the loop cannot read ends the batch: when the message
    at some place raises (its envelope, its data message or its sync
    message is not an object, or its text is a number or a list), the
    messages before it are handled as if the batch ended there, one line
    "Polling error: ..." is logged, and the messages after it are dropped,
    commands included; the next GET does not bring them back. *)
Theorem malformed_message_drops_the_rest (cfg : config) (w : surroundings) (b : bot)
    (raw_text m : string) (before after : list json) (bad : json)
    (cmds : list (option string)) :
  received w (receive_url cfg) = Responds 200 raw_text -> has_messages raw_text = true ->
  loaded w = Ok (JList (before ++ bad :: after)) ->
  Forall2 (fun msg c => command_of msg = Ok c) before cmds ->
  command_of bad = Err m ->
  poll_turn cfg w b
  = (fst (poll_turn cfg (with_loaded w (Ok (JList before))) b),
     trace_app (snd (poll_turn cfg (with_loaded w (Ok (JList before))) b))
       (mktrace [] ["Polling error: " ++ m])).
Proof.
  intros Hr Hm Hl H Hbad. unfold poll_turn.
  change (received (with_loaded w (Ok (JList before)))) with (received w).
  change (loaded (with_loaded w (Ok (JList before)))) with (@Ok json (JList before)).
  rewrite Hr, Hl, Hm. cbn [Z.eqb Pos.eqb iterate].
  rewrite for_msg_in_with_loaded, for_msg_in_app.
  destruct (for_msg_in_well_formed cfg w before cmds 0 b H) as (t & -> & _).
  cbn [for_msg_in fst snd]. rewrite Hbad. now rewrite trace_app_silent_r.
Qed.

Lemma malformed_message_drops_the_rest_witness :
  let cfg := mkconfig (Some "+440000") (Some "group.abc") in
  let bad := JDict [("envelope", JDict [("dataMessage", JNone)])] in
  let w := mksurroundings (fun _ => Responds 200 "[...]")
             (Ok (JList [data_message "/add 5 gift"; bad; data_message "/add 10 pay"]))
             (fun _ => calm) (fun _ => Responds 201 "{}") in
  poll_turn cfg w fresh
  = (fst (poll_turn cfg (with_loaded w (Ok (JList [data_message "/add 5 gift"]))) fresh),
     trace_app
       (snd (poll_turn cfg (with_loaded w (Ok (JList [data_message "/add 5 gift"]))) fresh))
       (mktrace [] ["Polling error: 'NoneType' object has no attribute 'get'"])).
Proof.
  intros cfg bad w.
  apply (malformed_message_drops_the_rest cfg w fresh "[...]"
           "'NoneType' object has no attribute 'get'"
           [data_message "/add 5 gift"] [data_message "/add 10 pay"] bad
           [Some "/add 5 gift"]); try reflexivity.
  repeat constructor.
Defined.

Lemma for_msg_in_no_command (cfg : config) (w : surroundings) (msgs : list json)
    (i : nat) (b : bot) :
  Forall (fun msg => command_of msg = Ok None) msgs ->
  for_msg_in cfg w i msgs b = (b, silent, Ok tt).
Proof.
  intros H. revert i. induction H as [|msg msgs Hc H IH]; intros i; [reflexivity|].
  cbn [for_msg_in]. rewrite Hc. apply IH.
Qed.

(** X16.  What is not a command is ignored.  A turn changes nothing, posts
    nothing and logs nothing when the GET is answered with another status
    than 200, with an empty body or with [null], or with a batch in which no
    message holds a command; and a message holds none when its text does
    not begin with a slash, a blank before the slash included, although
    [handle_command] itself would have read such a text as a command. *)
Theorem what_is_not_a_command_is_ignored (cfg : config) (w : surroundings) (b : bot)
    (status : Z) (raw_text : string) :
  received w (receive_url cfg) = Responds status raw_text ->
  (status <> 200 \/ has_messages raw_text = false
   \/ exists msgs, loaded w = Ok (JList msgs)
                   /\ Forall (fun msg => command_of msg = Ok None) msgs) ->
  poll_turn cfg w b = (b, silent)
  /\ (forall s, startswith "/" s = false ->
        command_of (data_message s) = Ok None /\ command_of (sync_message s) = Ok None).
Proof.
  intros Hr H. split.
  - unfold poll_turn. rewrite Hr.
    destruct (status =? 200) eqn:Hs; [|reflexivity].
    destruct (has_messages raw_text) eqn:Hm; [|reflexivity].
    destruct H as [H|[H|(msgs & Hl & H)]].
    + apply Z.eqb_eq in Hs. contradiction.
    + discriminate.
    + rewrite Hl. cbn [iterate]. now rewrite (for_msg_in_no_command cfg w msgs 0 b H).
  - intros s Hs. unfold command_of, data_message, sync_message.
    cbn -[startswith]. destruct s as [|c s]; [now split|]. cbn -[startswith].
    rewrite Hs. now split.
Qed.

Lemma what_is_not_a_command_is_ignored_witness :
  let cfg := mkconfig (Some "+440000") (Some "group.abc") in
  let w := mksurroundings (fun _ => Responds 200 "[...]")
             (Ok (JList [data_message " /add 5 gift"; sync_message "add 5";
                         JDict [("envelope", JDict [("receiptMessage", JDict [])])]]))
             (fun _ => calm) (fun _ => Responds 201 "{}") in
  poll_turn cfg w fresh = (fresh, silent)
  /\ (forall s, startswith "/" s = false ->
        command_of (data_message s) = Ok None /\ command_of (sync_message s) = Ok None).
Proof.
  intros cfg w.
  apply (what_is_not_a_command_is_ignored cfg w fresh 200 "[...]"); [reflexivity|].
  right. right. eexists. split; [reflexivity|]. repeat constructor.
Defined.

(** X17.  Where the text of a message is taken from.  In a message whose
    envelope is an object: a data message with a text that is not empty
    gives the text, whatever the sync message holds; with no data message,
    the text is that of the sent message of the sync message; and with
    neither (a receipt, a typing notice) the message holds no command. *)
Theorem message_text_source (items env_items : list (string * json)) :
  lookup "envelope" items = Some (JDict env_items) ->
  (forall dm c s,
     lookup "dataMessage" env_items = Some (JDict dm) ->
     lookup "message" dm = Some (JStr (String c s)) ->
     incoming_text (JDict items) = Ok (JStr (String c s)))
  /\ (forall sync sent v,
        lookup "dataMessage" env_items = None ->
        lookup "syncMessage" env_items = Some (JDict sync) ->
        lookup "sentMessage" sync = Some (JDict sent) ->
        lookup "message" sent = Some v ->
        incoming_text (JDict items) = Ok v)
  /\ (lookup "dataMessage" env_items = None ->
      lookup "syncMessage" env_items = None ->
      command_of (JDict items) = Ok None).
Proof.
  intros He. unfold command_of, incoming_text. cbn [get]. rewrite He. cbn [get].
  split; [|split].
  - intros dm c s Hd Hm. rewrite Hd. cbn [get]. rewrite Hm. reflexivity.
  - intros sync sent v Hd Hs Hsent Hm. rewrite Hd, Hs. cbn [get lookup truthy].
    rewrite Hsent. cbn [get]. rewrite Hm. reflexivity.
  - intros Hd Hs. rewrite Hd, Hs. reflexivity.
Qed.

Lemma message_text_source_witness :
  incoming_text
    (JDict
       [("envelope",
         JDict
           [("source", JStr "+441111"); ("timestamp", JInt 1732190400000);
            ("dataMessage",
             JDict [("timestamp", JInt 1732190400000); ("message", JStr "/balance")]);
            ("syncMessage", JDict [("sentMessage", JDict [("message", JStr "/add 5")])])]);
        ("account", JStr "+440000")])
  = Ok (JStr "/balance").
Proof.
  destruct (message_text_source
              [("envelope",
                JDict
                  [("source", JStr "+441111"); ("timestamp", JInt 1732190400000);
                   ("dataMessage",
                    JDict [("timestamp", JInt 1732190400000); ("message", JStr "/balance")]);
                   ("syncMessage",
                    JDict [("sentMessage", JDict [("message", JStr "/add 5")])])]);
               ("account", JStr "+440000")]
              _ eq_refl) as [H _].
  exact (H _ _ _ eq_refl eq_refl).
Defined.

(** ** Further properties: commands and the weekly task together *)

(** X18.  The weekly amount in force at the accrual pays all the weeks
    owed.  After [/set x], a turn of [weekly_task] that finds [k] whole
    weeks since the stored date adds [k * x] to the balance, the weeks that
    passed before the [/set] included. *)
Theorem set_applies_to_the_weeks_owed (text p0 tok : string) (rest : list string)
    (x : float) (e e' : env) (b : bot) (last : cdate) :
  split text = p0 :: tok :: rest -> lower p0 = "/set" -> float_of_str tok = Return x ->
  write_error e = None -> write_error e' = None ->
  strptime_date (last_weekly_update (state b)) = Return last ->
  7 <= days_since (now e') last ->
  balance (state (fst (weekly_task tt e' (fst (handle_command text e b)))))
  = float_add (balance (state b))
      (float_mul (float_of_int (days_since (now e') last / 7)) x).
Proof.
  intros Hs Hc Hf Hw Hw' Hp Hd.
  rewrite (handle_set text e b p0 tok rest x Hs Hc Hf), (failure_at_none _ _ Hw). cbn [fst].
  rewrite weekly_task_eq. cbn [state last_weekly_update set_weekly_amount]. rewrite Hp.
  apply Z.leb_le in Hd. rewrite Hd. cbv zeta. rewrite !(failure_at_none _ _ Hw').
  destruct (add_weeks last (accrual_weeks e' last)); reflexivity.
Qed.

Lemma set_applies_to_the_weeks_owed_witness :
  balance (state (fst (weekly_task tt calm (fst (handle_command "/set 10" calm owed_17_days)))))
  = float_add zero (float_mul (float_of_int 2) ten).
Proof.
  exact (set_applies_to_the_weeks_owed "/set 10" "/set" "10" [] ten calm calm owed_17_days
           (mkdate 2024 11 4) eq_refl eq_refl eq_refl eq_refl eq_refl eq_refl
           ltac:(vm_compute; discriminate)).
Defined.

(** X19.  What a failed save does to an accrual.  A turn that owes weeks
    saves twice: in [add_transaction], and again once the date is moved.
    When the first save cannot open the file, the turn ends with the
    [OSError] and the file is untouched: a bot restarted from a file that
    held the state is the bot before the turn, and nothing is lost.  When
    the second save cannot open it, the file holds the allowance paid and
    the old date: the bot restarted from it owes the same weeks again, and
    its next turn at the same clock pays them a second time.  When either
    save fails after the file was opened, the file is cut short and the
    restarted bot starts from the default state. *)
Theorem failed_accrual_save (e e' : env) (b : bot) (last : cdate) (f : failure) :
  in_sync b ->
  strptime_date (last_weekly_update (state b)) = Return last ->
  valid_date (today (now e)) = true ->
  7 <= days_since (now e) last ->
  write_error e = Some f ->
  let total := accrual_total e last (state b) in
  let s1 := after_transaction e total (accrual_comment e last) (state b) in
  let s2 := set_last_weekly_update
              (strftime_date (ord2ymd (toordinal last + 7 * accrual_weeks e last))) s1 in
  match f with
  | OpenFails 0 msg =>
      weekly_task tt e b = (mkbot s1 (file b), Raise (OSError msg))
      /\ BudgetBot e' (file b) = Return (Runs b)
  | OpenFails 1 msg =>
      weekly_task tt e b = (mkbot s2 (Document s1), Raise (OSError msg))
      /\ BudgetBot e' (Document s1) = Return (Runs (mkbot s1 (Document s1)))
      /\ balance s1 = float_add (balance (state b)) total
      /\ last_weekly_update s1 = last_weekly_update (state b)
      /\ (now e' = now e -> write_error e' = None ->
          balance (state (fst (weekly_task tt e' (mkbot s1 (Document s1)))))
          = float_add (float_add (balance (state b)) total) total)
  | WriteFails 0 msg decode_msg =>
      weekly_task tt e b = (mkbot s1 (Malformed decode_msg), Raise (OSError msg))
      /\ BudgetBot e' (Malformed decode_msg)
         = Return (Runs (mkbot (default_state (now e')) (Malformed decode_msg)))
  | WriteFails 1 msg decode_msg =>
      weekly_task tt e b = (mkbot s2 (Malformed decode_msg), Raise (OSError msg))
      /\ BudgetBot e' (Malformed decode_msg)
         = Return (Runs (mkbot (default_state (now e')) (Malformed decode_msg)))
  | _ => weekly_task tt e b = (mkbot s2 (Document s2), Return tt)
  end.
Proof.
  intros Hb Hp Hv Hd Hw total s1 s2.
  pose proof (add_weeks_in_range e last Hv (strptime_valid _ _ Hp) Hd) as Ha.
  assert (G : weekly_task tt e b
              = match failure_at 0 e with
                | Some f0 => (mkbot s1 (cut_short f0 (file b)), Raise (OSError (failure_message f0)))
                | None =>
                    match failure_at 1 e with
                    | Some f1 =>
                        (mkbot s2 (cut_short f1 (Document s1)),
                         Raise (OSError (failure_message f1)))
                    | None => (mkbot s2 (Document s2), Return tt)
                    end
                end).
  { rewrite weekly_task_eq, Hp.
    replace (7 <=? days_since (now e) last) with true by (symmetry; now apply Z.leb_le).
    cbv zeta. rewrite Ha. reflexivity. }
  rewrite G. unfold failure_at. rewrite Hw.
  destruct f as [[|[|k]] msg|[|[|k]] msg decode_msg];
    cbn [failing_save Nat.eqb cut_short failure_message]; try reflexivity.
  - split; [reflexivity|]. now apply BudgetBot_in_sync.
  - split; [reflexivity|]. split; [reflexivity|]. split; [reflexivity|].
    split; [reflexivity|].
    intros Hn Hw'. rewrite weekly_task_eq. subst s1. unfold after_transaction at 1.
    cbn [state last_weekly_update]. rewrite Hp. rewrite Hn.
    replace (7 <=? days_since (now e) last) with true by (symmetry; now apply Z.leb_le).
    cbv zeta. rewrite !(failure_at_none _ _ Hw').
    assert (Ha' : add_weeks last (accrual_weeks e' last) = add_weeks last (accrual_weeks e last)).
    { unfold accrual_weeks. now rewrite Hn. }
    rewrite Ha', Ha. cbn [fst state balance after_transaction set_last_weekly_update].
    unfold total, accrual_total, accrual_weeks. rewrite Hn. reflexivity.
  - split; reflexivity.
  - split; reflexivity.
Qed.

Lemma failed_accrual_save_witness :
  let b := mkbot (state owed_17_days) (Document (state owed_17_days)) in
  let e := mkenv noon (Some (OpenFails 1 "[Errno 13] Permission denied: 'budget_state.json'")) in
  let s1 := mkledger ten five "2024-11-04"
              [mktransaction "2024-11-21 12:00" ten "Auto-allowance (2 wks)"] in
  weekly_task tt e b
  = (mkbot (set_last_weekly_update "2024-11-18" s1) (Document s1),
     Raise (OSError "[Errno 13] Permission denied: 'budget_state.json'"))
  /\ BudgetBot calm (Document s1) = Return (Runs (mkbot s1 (Document s1)))
  /\ balance (state (fst (weekly_task tt calm (mkbot s1 (Document s1)))))
     = float_add (float_add zero ten) ten.
Proof.
  intros b e s1.
  pose proof (failed_accrual_save e calm b (mkdate 2024 11 4)
                (OpenFails 1 "[Errno 13] Permission denied: 'budget_state.json'")
                eq_refl eq_refl eq_refl ltac:(vm_compute; discriminate) eq_refl) as H.
  cbv zeta in H. destruct H as (H1 & H2 & _ & _ & H5).
  split; [exact H1|]. split; [exact H2|]. exact (H5 eq_refl eq_refl).
Defined.

Lemma weekly_turns_idle (envs : list env) (b : bot) (d0 : cdate) :
  strptime_date (last_weekly_update (state b)) = Return d0 ->
  Forall (fun e => days_since (now e) d0 < 7) envs ->
  weekly_turns envs b = (b, Return tt).
Proof.
  intros Hp H. induction H as [|e envs He H IH]; [reflexivity|].
  cbn [weekly_turns]. rewrite weekly_task_eq, Hp.
  apply Z.leb_gt in He. rewrite He. exact IH.
Qed.

(** X20.  The default state lives in memory only.  A bot started where no
    state file is holds balance 0, weekly amount 1 and the day of the start
    as the date of the last accrual, and the start writes no file; as long
    as every turn of [weekly_task] comes less than seven days after the
    start, the turns change nothing and write nothing.  A bot that is
    restarted within the week, and so on, begins a new period at each
    start: without a transaction or a [/set] in between, it never accrues. *)
Theorem unsaved_start_begins_anew (e : env) (envs : list env) :
  valid_date (today (now e)) = true ->
  Forall (fun e1 => days_since (now e1) (today (now e)) < 7) envs ->
  exists b,
    BudgetBot e Missing = Return (Runs b)
    /\ state b = mkledger zero one (strftime_date (today (now e))) []
    /\ file b = Missing
    /\ weekly_turns envs b = (b, Return tt).
Proof.
  intros Hv H. eexists. split; [reflexivity|]. split; [reflexivity|].
  split; [reflexivity|].
  apply (weekly_turns_idle envs _ (today (now e))); [|exact H].
  cbn [state default_state last_weekly_update]. now apply strptime_strftime.
Qed.

Lemma unsaved_start_begins_anew_witness :
  exists b,
    BudgetBot calm Missing = Return (Runs b)
    /\ state b = mkledger zero one (strftime_date (today (now calm))) []
    /\ file b = Missing
    /\ weekly_turns [calm; mkenv (mkdatetime (mkdate 2024 11 27) 23 59) None] b
       = (b, Return tt).
Proof.
  apply (unsaved_start_begins_anew calm
           [calm; mkenv (mkdatetime (mkdate 2024 11 27) 23 59) None]).
  - reflexivity.
  - repeat constructor.
Defined.

(** ** Further properties: amounts as they are typed *)

Lemma typed_amount_check_all : all_from (Z.to_nat 10000) 0 typed_amount_check = true.
Proof. vm_compute. reflexivity. Qed.

Lemma typed_amount_facts (n : Z) :
  0 <= n < 10000 ->
  exists x,
    split (pounds_pence n) = [pounds_pence n]
    /\ float_of_str (pounds_pence n) = Return x
    /\ format_2f x = pounds_pence n.
Proof.
  intros Hn.
  assert (H : typed_amount_check n = true).
  { apply (all_from_spec typed_amount_check _ 0 typed_amount_check_all). lia. }
  unfold typed_amount_check in H.
  destruct (split (pounds_pence n)) as [|tok [|]]; try discriminate.
  destruct (float_of_str (pounds_pence n)) as [x|]; try discriminate.
  apply andb_true_iff in H. destruct H as [H _].
  apply andb_true_iff in H. destruct H as [H1 H2].
  apply String.eqb_eq in H1, H2. subst tok. now exists x.
Qed.

(** X21.  An amount is shown as it was typed: for every amount from 0.00 to
    99.99 typed with two decimals, [/add], [/sub] and [/set] read the
    nearest float, and the amount in their reply, that float written to two
    places, is the text typed. *)
Theorem typed_amount_is_shown_as_typed (n : Z) (e : env) (b : bot) :
  0 <= n < 10000 -> write_error e = None ->
  exists x,
    float_of_str (pounds_pence n) = Return x
    /\ snd (handle_command ("/add " ++ pounds_pence n) e b)
       = Return (Some ("✅ Added £" ++ pounds_pence n ++ ". New Balance: £"
                       ++ format_2f (float_add (balance (state b)) x)))
    /\ snd (handle_command ("/sub " ++ pounds_pence n) e b)
       = Return (Some ("✅ Subtracted £" ++ pounds_pence n ++ ". New Balance: £"
                       ++ format_2f (float_add (balance (state b)) (float_neg x))))
    /\ snd (handle_command ("/set " ++ pounds_pence n) e b)
       = Return (Some ("⚙️ Weekly amount set to £" ++ pounds_pence n)).
Proof.
  intros Hn Hw. destruct (typed_amount_facts n Hn) as (x & Hs & Hf & Hx).
  exists x. split; [exact Hf|].
  assert (Ha : split ("/add " ++ pounds_pence n) = ["/add"; pounds_pence n]).
  { change (split ("/add " ++ pounds_pence n)) with ("/add" :: split (pounds_pence n)).
    now rewrite Hs. }
  assert (Hb : split ("/sub " ++ pounds_pence n) = ["/sub"; pounds_pence n]).
  { change (split ("/sub " ++ pounds_pence n)) with ("/sub" :: split (pounds_pence n)).
    now rewrite Hs. }
  assert (Hc : split ("/set " ++ pounds_pence n) = ["/set"; pounds_pence n]).
  { change (split ("/set " ++ pounds_pence n)) with ("/set" :: split (pounds_pence n)).
    now rewrite Hs. }
  rewrite (handle_transaction _ e b "/add" _ [] x Ha eq_refl Hf).
  rewrite (handle_transaction _ e b "/sub" _ [] x Hb eq_refl Hf).
  rewrite (handle_set _ e b "/set" _ [] x Hc eq_refl Hf).
  rewrite !(failure_at_none _ _ Hw). cbn [snd].
  change (signed_amount (lower "/add") x) with x.
  change (signed_amount (lower "/sub") x) with (float_neg x).
  change (action_word (lower "/add")) with "Added".
  change (action_word (lower "/sub")) with "Subtracted".
  rewrite float_abs_neg.
  assert (Habs : format_2f (float_abs x) = pounds_pence n).
  { assert (H : typed_amount_check n = true).
    { apply (all_from_spec typed_amount_check _ 0 typed_amount_check_all). lia. }
    unfold typed_amount_check in H. rewrite Hs, Hf, float_abs_neg in H.
    apply andb_true_iff in H. destruct H as [_ H]. now apply String.eqb_eq in H. }
  rewrite Habs, Hx. unfold after_transaction. cbn [balance]. repeat split.
Qed.

Lemma typed_amount_is_shown_as_typed_witness :
  exists x,
    float_of_str "10.50" = Return x
    /\ snd (handle_command "/add 10.50" calm fresh)
       = Return (Some ("✅ Added £10.50. New Balance: £" ++ format_2f (float_add zero x)))
    /\ snd (handle_command "/sub 10.50" calm fresh)
       = Return (Some ("✅ Subtracted £10.50. New Balance: £"
                       ++ format_2f (float_add zero (float_neg x))))
    /\ snd (handle_command "/set 10.50" calm fresh)
       = Return (Some "⚙️ Weekly amount set to £10.50").
Proof.
  apply (typed_amount_is_shown_as_typed 1050 calm fresh); [lia|reflexivity].
Defined.

(** ** Further properties: amounts that do not parse *)

(** X22.  An amount written in ASCII that [float] does not read changes
    nothing, whatever the clock and the disk, and is answered: [/add],
    [/sub] and [/withdraw] (in any case) with the invalid-amount reply,
    which names the syntax of [/add]; [/set] with the general error reply
    and the message of [float], which quotes the word. *)
Theorem unparseable_amount_reply (text : string) (e : env) (b : bot)
    (p0 tok : string) (rest : list string) (x : exn) :
  split text = p0 :: tok :: rest ->
  str_in (lower p0) amount_commands = true ->
  is_ascii tok = true ->
  float_of_str tok = Raise x ->
  handle_command text e b
  = (b, Return (Some (if (lower p0 =? "/set")%string
                      then "⚠️ Error: could not convert string to float: " ++ repr tok
                      else invalid_amount_reply))).
Proof.
  intros Hs Hc _ Hf.
  destruct (lower p0 =? "/set")%string eqn:Hset.
  - apply String.eqb_eq in Hset. now apply (handle_set_invalid text e b p0 tok rest x).
  - apply (handle_transaction_invalid text e b p0 tok rest x Hs); [|exact Hf].
    unfold amount_commands, transaction_commands, str_in in *. cbn [existsb] in *.
    rewrite Hset in Hc. rewrite !orb_false_r in Hc. rewrite !orb_false_r. exact Hc.
Qed.

Lemma unparseable_amount_reply_witness :
  handle_command "/Sub 5,00 bus" calm fresh
  = (fresh, Return (Some "⚠️ Invalid amount. Use: /add 5.00 chocolate"))
  /\ handle_command "/set 5p" calm fresh
     = (fresh, Return (Some "⚠️ Error: could not convert string to float: '5p'")).
Proof.
  split.
  - apply (unparseable_amount_reply "/Sub 5,00 bus" calm fresh "/Sub" "5,00" ["bus"]
             (ValueError ("could not convert string to float: " ++ repr "5,00")));
      vm_compute; reflexivity.
  - apply (unparseable_amount_reply "/set 5p" calm fresh "/set" "5p" []
             (ValueError ("could not convert string to float: " ++ repr "5p")));
      vm_compute; reflexivity.
Defined.
